(** * obstacle-env: the pygame viewer of [obstacle_env/graphics.py]

    A shallow embedding of the three classes of the module
    ([SimulationSurface], [Scene2dGraphics], [EnvViewer]) and the properties
    of its world-to-pixel transform, its event handler, its draw pass and
    its frame capture.

    Conventions of the embedding:
    - Python floats and numpy floats are exact rationals ([Q]); the results
      hold up to the rounding of IEEE arithmetic.  Python ints are [Z].
    - A numpy array is an [ndarray] of rank one or two; indexing and
      broadcasting follow numpy and raise where numpy raises.
    - A method that can raise returns a [res]; a method that also touches
      the window, the file system or an external process runs in the monad
      [M], whose state survives an exception as the Python heap does. *)

From Stdlib Require Import ZArith QArith Qround Qabs Qpower String Ascii List Lia Lqa Permutation.
From Stdlib Require Import DecimalString DecimalN.
From Stdlib Require SpecFloat.
From stdpp Require Import base gmap strings.
Import ListNotations.

Local Open Scope Z_scope.

(** ** Python values *)

(** The exceptions the module can raise. *)
Inductive exn : Set :=
  | AttributeError
  | IndexError
  | ValueError
  | ZeroDivisionError
  | OverflowError
  | FileExistsError
  | FileNotFoundError
  | NotADirectoryError
  | PygameError.

(** The outcome of a call: a value, or a raised exception. *)
Inductive res (A : Type) : Type :=
  | Ok (a : A)
  | Raise (e : exn).
Arguments Ok {A} a.
Arguments Raise {A} e.

#[global] Instance res_ret : MRet res := fun A a => Ok a.
#[global] Instance res_bind : MBind res := fun A B k r =>
  match r with
  | Ok a => k a
  | Raise e => Raise e
  end.

(** [int(x)] on a float: the fractional part is dropped, so the result is
    rounded toward zero. *)
Definition py_int (x : Q) : Z := Z.quot (Qnum x) (Z.pos (Qden x)).

(** [np.round(x)]: the nearest integer, a tie going to the even neighbour. *)
Definition np_round (x : Q) : Z :=
  let f := Qfloor x in
  match ((x - inject_Z f) ?= (1 # 2))%Q with
  | Lt => f
  | Gt => f + 1
  | Eq => if Z.even f then f else f + 1
  end.

(** Python's true division [a / b] on floats. *)
Definition py_div (a b : Q) : res Q :=
  if Qeq_bool b 0 then Raise ZeroDivisionError else Ok (a / b)%Q.

(** A numpy array of shape [(n,)] or [(n, m)]. *)
Inductive ndarray : Type :=
  | Arr1 (v : list Q)
  | Arr2 (rows : list (list Q)).

(** [a[i, j]]: two indices need a rank-two array and must be in range. *)
Definition index2 (a : ndarray) (i j : nat) : res Q :=
  match a with
  | Arr1 _ => Raise IndexError
  | Arr2 rows =>
      match nth_error rows i with
      | None => Raise IndexError
      | Some row =>
          match nth_error row j with
          | None => Raise IndexError
          | Some x => Ok x
          end
      end
  end.

(** [a - np.array([[p], [q]])]: the right operand has shape [(2, 1)], so
    numpy broadcasts.  A rank-one [a] of shape [(n,)] counts as [(1, n)] and
    the result has shape [(2, n)]; a rank-two [a] needs one or two rows. *)
Definition sub_column (a : ndarray) (p q : Q) : res ndarray :=
  match a with
  | Arr1 v =>
      Ok (Arr2 [map (fun x => x - p)%Q v; map (fun x => x - q)%Q v])
  | Arr2 [r] =>
      Ok (Arr2 [map (fun x => x - p)%Q r; map (fun x => x - q)%Q r])
  | Arr2 [r0; r1] =>
      Ok (Arr2 [map (fun x => x - p)%Q r0; map (fun x => x - q)%Q r1])
  | Arr2 _ => Raise ValueError
  end.

(** ** Text *)

Local Open Scope string_scope.

(** [str(n)] for a natural number: its decimal digits ([N.to_uint] gives
    zero the digit 0, so no number prints as the empty string). *)
Definition digits (n : N) : string := NilEmpty.string_of_uint (N.to_uint n).

Fixpoint zeros (k : nat) : string :=
  match k with
  | O => ""
  | S k' => String "0" (zeros k')
  end.

(** ["{:04d}".format(z)]: sign-aware zero padding to a width of at least
    four characters. *)
Definition format_04d (z : Z) : string :=
  let d := digits (Z.abs_N z) in
  if (z <? 0)%Z then "-" ++ zeros (3 - String.length d) ++ d
  else zeros (4 - String.length d) ++ d.

(** ["{}".format(z)] for an int. *)
Definition format_int (z : Z) : string :=
  if (z <? 0)%Z then "-" ++ digits (Z.abs_N z) else digits (Z.abs_N z).

Fixpoint slashless (s : string) : bool :=
  match s with
  | EmptyString => true
  | String c s' => negb (Ascii.eqb c "/") && slashless s'
  end.

(** [p[:p.rfind("/") + 1]]: the path up to and including its last ["/"]. *)
Fixpoint head_of (p : string) : string :=
  match p with
  | EmptyString => ""
  | String c p' =>
      if slashless p' then (if Ascii.eqb c "/" then "/" else "")
      else String c (head_of p')
  end.

(** [s.rstrip("/")]. *)
Fixpoint rstrip_slash (s : string) : string :=
  match s with
  | EmptyString => ""
  | String c s' =>
      match rstrip_slash s' with
      | EmptyString => if Ascii.eqb c "/" then "" else String c ""
      | t => String c t
      end
  end.

(** [os.path.dirname(p)] of [posixpath]: the head of the path, without its
    trailing slashes unless it consists of slashes only. *)
Definition dirname (p : string) : string :=
  let head := head_of p in
  match rstrip_slash head with
  | EmptyString => head
  | stripped => stripped
  end.

(** ** State and exceptions *)

(** A computation over a mutable state [S] that returns or raises; the
    state reached is kept in both cases. *)
Definition M (S A : Type) : Type := S -> res A * S.

#[global] Instance M_ret {S} : MRet (M S) := fun A a s => (Ok a, s).
#[global] Instance M_bind {S} : MBind (M S) := fun A B k m s =>
  match m s with
  | (Ok a, s') => k a s'
  | (Raise e, s') => (Raise e, s')
  end.

Definition get {S} : M S S := fun s => (Ok s, s).
Definition modify {S} (f : S -> S) : M S unit := fun s => (Ok tt, f s).
Definition lift {S A} (r : res A) : M S A := fun s => (r, s).

(** Run a computation on a component of the state. *)
Definition zoom {S T A} (proj : S -> T) (upd : T -> S -> S) (m : M T A) : M S A :=
  fun s => let (r, t') := m (proj s) in (r, upd t' s).

(** A [for] loop over a list. *)
Fixpoint for_each {S A} (l : list A) (body : A -> M S unit) : M S unit :=
  match l with
  | [] => mret tt
  | x :: l' => body x ;; for_each l' body
  end.

(** ** pygame *)

Definition color : Type := Z * Z * Z.

(** What [pygame.draw] has painted on a surface. *)
Inductive draw_call : Type :=
  | DrawRect (c : color) (rect : list Z) (width : Z)
  | DrawCircle (c : color) (center : Z * Z) (radius : Z) (width : Z).

(** The events of [pygame.event.get()]; key events carry [event.key]. *)
Inductive Event : Type :=
  | QUIT
  | KEYDOWN (key : Z)
  | KEYUP (key : Z)
  | OTHER (type : Z).

Definition K_k : Z := 107.
Definition K_l : Z := 108.
Definition K_m : Z := 109.
Definition K_o : Z := 111.

(** ** class SimulationSurface *)

Module SimulationSurface.

(** [canvas] is the pixel content of the underlying [pygame.Surface], as
    the draw calls made on it, oldest first. *)
Record t : Type := mk {
  width : Z;
  height : Z;
  canvas : list draw_call;
  origin : ndarray;
  scaling : Q;
  centering_position : Q
}.

Definition GREY : color := (100, 100, 100).
Definition WHITE : color := (255, 255, 255).
Definition SCALING_FACTOR : Q := 1.3.
Definition MOVING_FACTOR : Q := 0.1.

(** Assignments to one attribute, and a [pygame.draw] call on the surface. *)
Definition set_origin (o : ndarray) (self : t) : t :=
  mk (width self) (height self) (canvas self) o (scaling self) (centering_position self).
Definition set_scaling (x : Q) (self : t) : t :=
  mk (width self) (height self) (canvas self) (origin self) x (centering_position self).
Definition set_centering_position (x : Q) (self : t) : t :=
  mk (width self) (height self) (canvas self) (origin self) (scaling self) x.
Definition draw (d : draw_call) (self : t) : t :=
  mk (width self) (height self) (canvas self ++ [d]) (origin self) (scaling self)
     (centering_position self).

(** New window surface: the origin starts as the flat array
    [np.array([0, 0])]. *)
Definition __init__ (size : Z * Z) : t :=
  mk (fst size) (snd size) [] (Arr1 [0; 0]%Q) 15.0 0.5.

(** Convert a distance [m] to pixels [px]. *)
Definition pix (self : t) (length : Q) : Z :=
  py_int (length * scaling self).

(** Convert two world coordinates [m] into a position in the surface [px];
    the origin is read at [[0, 0]] and [[1, 0]]. *)
Definition pos2pix (self : t) (x y : Q) : res (Z * Z) :=
  ox ← index2 (origin self) 0 0;
  let px := pix self (x - ox) in
  oy ← index2 (origin self) 1 0;
  mret (px, pix self (y - oy)).

(** [l[i]] on a sequence. *)
Definition item (l : list Q) (i : nat) : res Q :=
  match nth_error l i with
  | Some x => Ok x
  | None => Raise IndexError
  end.

(** Convert a world vector [m] into a size in the surface [px]. *)
Definition vec2pix (self : t) (vec : list Q) : res (Z * Z) :=
  v0 ← item vec 0;
  v1 ← item vec 1;
  mret (pix self v0, pix self v1).

Definition rect (self : t) (rect : list Q) : res (list Z) :=
  r0 ← item rect 0;
  r1 ← item rect 1;
  p ← pos2pix self r0 r1;
  d ← vec2pix self (firstn 2 (skipn 2 rect));
  mret [fst p; snd p; fst d; snd d].

(** Set the origin of the displayed area to center on a given world
    position. *)
Definition move_display_window_to (self : t) (position : ndarray) : res t :=
  dx ← py_div (centering_position self * inject_Z (width self)) (scaling self);
  dy ← py_div (inject_Z (height self)) (2 * scaling self);
  o ← sub_column position dx dy;
  mret (set_origin o self).

(** Handle pygame events for moving and zooming in the displayed area. *)
Definition handle_event (self : t) (event : Event) : t :=
  match event with
  | KEYDOWN key =>
      let self := if (key =? K_l)%Z
                  then set_scaling (scaling self * (1 / SCALING_FACTOR)) self
                  else self in
      let self := if (key =? K_o)%Z
                  then set_scaling (scaling self * SCALING_FACTOR) self
                  else self in
      let self := if (key =? K_m)%Z
                  then set_centering_position (centering_position self - MOVING_FACTOR) self
                  else self in
      if (key =? K_k)%Z
      then set_centering_position (centering_position self + MOVING_FACTOR) self
      else self
  | _ => self
  end.

End SimulationSurface.

(** ** class SimulationSurface, in binary64 *)

(** The arithmetic of the viewport once more, with Python's floats as the
    IEEE 754 binary64 numbers they are ([SpecFloat]: every operation
    rounds to nearest, ties to even).  It tells which of the properties
    below are owed to exact arithmetic. *)
Module Binary64.

Definition float : Type := SpecFloat.spec_float.
Definition prec : Z := 53.
Definition emax : Z := 1024.

(** [float(z)] for an int, and the float a decimal literal [n / d]
    denotes (both below 2 ** 53, so that the quotient is rounded once). *)
Definition of_int (z : Z) : float := SpecFloat.binary_normalize prec emax z 0 false.
Definition literal (n d : Z) : float := SpecFloat.SFdiv prec emax (of_int n) (of_int d).

Definition add : float -> float -> float := SpecFloat.SFadd prec emax.
Definition sub : float -> float -> float := SpecFloat.SFsub prec emax.
Definition mul : float -> float -> float := SpecFloat.SFmul prec emax.

(** Python's true division [a / b] on floats. *)
Definition div (a b : float) : res float :=
  match b with
  | SpecFloat.S754_zero _ => Raise ZeroDivisionError
  | _ => Ok (SpecFloat.SFdiv prec emax a b)
  end.

(** [int(x)]: the fractional part is dropped; an infinity and a NaN have
    no integer. *)
Definition py_int (x : float) : res Z :=
  match x with
  | SpecFloat.S754_zero _ => Ok 0
  | SpecFloat.S754_finite s m e =>
      let v := if (0 <=? e)%Z then Z.shiftl (Z.pos m) e else Z.shiftr (Z.pos m) (- e) in
      Ok (if s then - v else v)
  | SpecFloat.S754_infinity _ => Raise OverflowError
  | SpecFloat.S754_nan => Raise ValueError
  end.

(** A numpy array of floats, of shape [(n,)] or [(n, m)], with its
    indexing and its broadcast against a [(2, 1)] array. *)
Inductive ndarray : Type :=
  | Arr1 (v : list float)
  | Arr2 (rows : list (list float)).

Definition index2 (a : ndarray) (i j : nat) : res float :=
  match a with
  | Arr1 _ => Raise IndexError
  | Arr2 rows =>
      match nth_error rows i with
      | None => Raise IndexError
      | Some row =>
          match nth_error row j with
          | None => Raise IndexError
          | Some x => Ok x
          end
      end
  end.

Definition sub_column (a : ndarray) (p q : float) : res ndarray :=
  match a with
  | Arr1 v =>
      Ok (Arr2 [map (fun x => sub x p) v; map (fun x => sub x q) v])
  | Arr2 [r] =>
      Ok (Arr2 [map (fun x => sub x p) r; map (fun x => sub x q) r])
  | Arr2 [r0; r1] =>
      Ok (Arr2 [map (fun x => sub x p) r0; map (fun x => sub x q) r1])
  | Arr2 _ => Raise ValueError
  end.

(** The viewport; the pixels play no part here. *)
Record t : Type := mk {
  width : Z;
  height : Z;
  origin : ndarray;
  scaling : float;
  centering_position : float
}.

Definition SCALING_FACTOR : float := literal 13 10.
Definition MOVING_FACTOR : float := literal 1 10.

Definition __init__ (size : Z * Z) : t :=
  mk (fst size) (snd size) (Arr1 [of_int 0; of_int 0]) (of_int 15) (literal 1 2).

Definition pix (self : t) (length : float) : res Z :=
  py_int (mul length (scaling self)).

Definition pos2pix (self : t) (x y : float) : res (Z * Z) :=
  ox ← index2 (origin self) 0 0;
  px ← pix self (sub x ox);
  oy ← index2 (origin self) 1 0;
  py ← pix self (sub y oy);
  mret (px, py).

Definition move_display_window_to (self : t) (position : ndarray) : res t :=
  dx ← div (mul (centering_position self) (of_int (width self))) (scaling self);
  dy ← div (of_int (height self)) (mul (of_int 2) (scaling self));
  o ← sub_column position dx dy;
  mret (mk (width self) (height self) o (scaling self) (centering_position self)).

(** [1 / self.SCALING_FACTOR] divides by a constant that is not zero. *)
Definition handle_event (self : t) (event : Event) : t :=
  match event with
  | KEYDOWN key =>
      let self := if (key =? K_l)%Z
                  then mk (width self) (height self) (origin self)
                         (mul (scaling self)
                            (SpecFloat.SFdiv prec emax (of_int 1) SCALING_FACTOR))
                         (centering_position self)
                  else self in
      let self := if (key =? K_o)%Z
                  then mk (width self) (height self) (origin self)
                         (mul (scaling self) SCALING_FACTOR) (centering_position self)
                  else self in
      let self := if (key =? K_m)%Z
                  then mk (width self) (height self) (origin self) (scaling self)
                         (sub (centering_position self) MOVING_FACTOR)
                  else self in
      if (key =? K_k)%Z
      then mk (width self) (height self) (origin self) (scaling self)
             (add (centering_position self) MOVING_FACTOR)
      else self
  | _ => self
  end.

End Binary64.

(** ** The environment the viewer renders *)

Record Obstacle : Type := { ob_position : ndarray; ob_radius : Q }.
Record Scene : Type := { obstacles : list Obstacle }.
Record Dynamics : Type := { position : ndarray }.

(** [env.dynamics] is [None] when there is no agent. *)
Record Env : Type := {
  scene : Scene;
  dynamics : option Dynamics;
  SIMULATION_FREQUENCY : Z
}.

(** ** class Scene2dGraphics *)

Module Scene2dGraphics.

Import SimulationSurface.

Definition WHITE : color := (255, 255, 255).
Definition GREY : color := (100, 100, 100).

Definition display (scene : Scene) : M SimulationSurface.t unit :=
  surface ← get;
  modify (draw (DrawRect WHITE [0; 0; width surface; height surface] 0));;
  for_each (obstacles scene) (fun obstacle =>
    surface ← get;
    x ← lift (index2 (ob_position obstacle) 0 0);
    y ← lift (index2 (ob_position obstacle) 1 0);
    position ← lift (pos2pix surface x y);
    modify (draw (DrawCircle GREY position (pix surface (ob_radius obstacle)) 0))).

Definition display_dynamics (dynamics : option Dynamics) : M SimulationSurface.t unit :=
  surface ← get;
  match dynamics with
  | None => lift (Raise AttributeError)
  | Some d =>
      x ← lift (index2 (position d) 0 0);
      y ← lift (index2 (position d) 1 0);
      position ← lift (pos2pix surface x y);
      modify (draw (DrawCircle GREY position (pix surface 0.2) 1))
  end.

End Scene2dGraphics.

(** ** The outside world *)

(** Calls that leave the process, in the order they were made. *)
Inductive io : Type :=
  | PygameInit
  | SetCaption (title : string)
  | SetMode (w h : Z)
  | EnvClose
  | Tick (framerate : Z)
  | Flip
  | PygameQuit
  | Mkdir (path : string)
  | Rmtree (path : string)
  | ImageSave (path : string) (pixels : list draw_call)
  | System (command : string).

(** An entry of the file system is a regular file or a directory. *)
Inductive kind : Set :=
  | File
  | Dir.

(** The file system as the entries that exist, each with its kind, and the
    call log.  The process owns every entry: no call fails for want of a
    permission. *)
Record World : Type := {
  files : gmap string kind;
  log : list io
}.

(** Record a call; change the file system. *)
Definition emit (e : io) : M World unit :=
  modify (fun w => {| files := files w; log := log w ++ [e] |}).

Definition set_files (f : gmap string kind -> gmap string kind) : M World unit :=
  modify (fun w => {| files := f (files w); log := log w |}).

(** [q] lies below the directory [d]. *)
Definition below (d q : string) : bool := String.prefix (d ++ "/") q.

(** The entries of the tree rooted at [d], [d] excluded. *)
Definition tree (d : string) (fs : gmap string kind) : gset string :=
  filter (fun q => below d q = true) (dom fs).

(** What holds the entry [p]: the working directory for a bare name, the
    entry [os.path.dirname(p)] otherwise. *)
Definition parent (p : string) (fs : gmap string kind) : option kind :=
  if decide (dirname p = "") then Some Dir else fs !! dirname p.

(** [os.path.exists(p)]. *)
Definition os_path_exists (p : string) : M World bool :=
  w ← get; mret (if files w !! p is Some _ then true else false).

(** [os.mkdir(p)]: the parent must exist and be a directory, and the path
    must be new. *)
Definition os_mkdir (p : string) : M World unit :=
  w ← get;
  match parent p (files w), files w !! p with
  | None, _ => lift (Raise FileNotFoundError)
  | Some File, _ => lift (Raise NotADirectoryError)
  | Some Dir, Some _ => lift (Raise FileExistsError)
  | Some Dir, None => emit (Mkdir p);; set_files (insert p Dir)
  end.

(** [shutil.rmtree(p, ignore_errors=True)]: a directory goes with all below
    it; on anything else the call fails, and the failure is ignored. *)
Definition shutil_rmtree (p : string) : M World unit :=
  w ← get;
  emit (Rmtree p);;
  match files w !! p with
  | Some Dir => set_files (filter (fun e => e.1 ≠ p ∧ below p e.1 = false))
  | _ => mret tt
  end.

(** [pygame.image.save(surface, p)]: writes (or overwrites) the regular
    file [p] in a directory that exists. *)
Definition pygame_image_save (pixels : list draw_call) (p : string) : M World unit :=
  w ← get;
  match parent p (files w), files w !! p with
  | Some Dir, Some File | Some Dir, None =>
      emit (ImageSave p pixels);; set_files (insert p File)
  | _, _ => lift (Raise PygameError)
  end.

(** [os.system(command)]: the command runs outside; [shell] gives what it
    does to the file system and its exit status, which the caller drops. *)
Definition os_system (shell : string -> gmap string kind -> gmap string kind * Z)
    (command : string) : M World Z :=
  w ← get;
  emit (System command);;
  set_files (fun fs => fst (shell command fs));;
  mret (snd (shell command (files w))).

(** ** class EnvViewer *)

Module EnvViewer.

Definition SCREEN_WIDTH : Z := 400.
Definition SCREEN_HEIGHT : Z := 400.
Definition VIDEO_SPEED : Z := 2.
Definition OUT_FOLDER : string := "out".
Definition TMP_FOLDER : string := OUT_FOLDER ++ "/" ++ "tmp".

(** [frame] and [video_name] are attributes only a recording viewer has. *)
Record t : Type := mk {
  record_video : bool;
  screen : list draw_call;
  sim_surface : SimulationSurface.t;
  frame : option Z;
  video_name : option string
}.

(** What a method call can change: the viewer and the world around it. *)
Record State : Type := { self : t; world : World }.

(** A call on the world, and a call on [self.sim_surface]. *)
Definition in_world {A} (m : M World A) : M State A :=
  zoom world (fun w s => {| self := self s; world := w |}) m.

Definition on_surface {A} (m : M SimulationSurface.t A) : M State A :=
  zoom (fun s => sim_surface (self s))
       (fun sf s => {| self := mk (record_video (self s)) (screen (self s)) sf
                                  (frame (self s)) (video_name (self s));
                       world := world s |}) m.

(** [self.screen.blit(surface, (0, 0))] with a surface as large as the
    screen, and [self.frame = f]. *)
Definition set_screen (px : list draw_call) : M State unit :=
  modify (fun s => {| self := mk (record_video (self s)) px (sim_surface (self s))
                                 (frame (self s)) (video_name (self s));
                      world := world s |}).

Definition set_frame (f : Z) : M State unit :=
  modify (fun s => {| self := mk (record_video (self s)) (screen (self s))
                                 (sim_surface (self s)) (Some f) (video_name (self s));
                      world := world s |}).

(** Reading an attribute that was never assigned. *)
Definition attr {S A} (o : option A) : M S A :=
  match o with
  | Some a => mret a
  | None => lift (Raise AttributeError)
  end.

(** Clear the temporary directory containing the rendered images. *)
Definition clear_video_dir : M World unit :=
  there ← os_path_exists TMP_FOLDER;
  if (there : bool) then shutil_rmtree TMP_FOLDER else mret tt.

(** Make a temporary directory to hold the rendered images.  If already
    existing, clear it. *)
Definition make_video_dir : M World unit :=
  there ← os_path_exists OUT_FOLDER;
  (if negb (there : bool) then os_mkdir OUT_FOLDER else mret tt);;
  clear_video_dir;;
  os_mkdir TMP_FOLDER.

(** The constructor; [now] is the text of
    [datetime.datetime.now().strftime('%Y-%m-%d-%H:%M:%S')]. *)
Definition __init__ (record_video : bool) (now : string) : M World t :=
  emit PygameInit;;
  emit (SetCaption "Obstacle-env");;
  emit (SetMode SCREEN_WIDTH SCREEN_HEIGHT);;
  let sim_surface := SimulationSurface.__init__ (SCREEN_WIDTH, SCREEN_HEIGHT) in
  if record_video then
    make_video_dir;;
    mret (mk true [] sim_surface (Some 0%Z) (Some ("obstacle_" ++ now)))
  else
    mret (mk false [] sim_surface None None).

(** Handle pygame events by forwarding them to the display;
    [events] is what [pygame.event.get()] returns, and [env.close()] is
    logged as [EnvClose]. *)
Definition handle_events (events : list Event) : M State unit :=
  for_each events (fun event =>
    (if event is QUIT then in_world (emit EnvClose) else mret tt);;
    on_surface (modify (fun sf => SimulationSurface.handle_event sf event))).

(** The world position of the center of the displayed window. *)
Definition window_position (env : Env) : ndarray :=
  match dynamics env with
  | Some d => position d
  | None => Arr1 [0; 0]%Q
  end.

(** Display the scene on a pygame window: recentre, draw the scene and the
    agent, blit the surface on the screen, wait for the clock, flip, and
    when recording count the frame and save the screen. *)
Definition display (env : Env) : M State unit :=
  on_surface (sf ← get;
              sf' ← lift (SimulationSurface.move_display_window_to sf (window_position env));
              modify (fun _ => sf'));;
  on_surface (Scene2dGraphics.display (scene env));;
  on_surface (Scene2dGraphics.display_dynamics (dynamics env));;
  s ← get;
  set_screen (SimulationSurface.canvas (sim_surface (self s)));;
  in_world (emit (Tick (SIMULATION_FREQUENCY env)));;
  in_world (emit Flip);;
  s ← get;
  if record_video (self s) then
    f ← attr (frame (self s));
    set_frame (f + 1);;
    name ← attr (video_name (self s));
    in_world (pygame_image_save (screen (self s))
                (TMP_FOLDER ++ "/" ++ name ++ "_" ++ format_04d (f + 1) ++ ".bmp"))
  else mret tt.

(** The two command lines of [close]. *)
Definition ffmpeg_command (name : string) (rate : Z) : string :=
  "ffmpeg -r " ++ format_int rate ++ " -i " ++ TMP_FOLDER ++ "/" ++ name
  ++ "_%04d.bmp -vcodec libx264 -crf 25 " ++ OUT_FOLDER ++ "/" ++ name ++ ".avi".

Definition convert_command (name : string) (delay : Z) : string :=
  "convert -delay " ++ format_int delay ++ " -loop 0 " ++ TMP_FOLDER ++ "/" ++ name
  ++ "*.bmp " ++ OUT_FOLDER ++ "/" ++ name ++ ".gif".

(** Close the pygame window.  If video frames were recorded, convert them
    to a video and a gif file, then clear the temporary directory. *)
Definition close (shell : string -> gmap string kind -> gmap string kind * Z) (env : Env)
    : M State unit :=
  in_world (emit PygameQuit);;
  s ← get;
  if record_video (self s) then
    name ← attr (video_name (self s));
    in_world (os_system shell
      (ffmpeg_command name (VIDEO_SPEED * SIMULATION_FREQUENCY env)));;
    q ← lift (py_div 100 (inject_Z (VIDEO_SPEED * SIMULATION_FREQUENCY env)));
    let delay := np_round q in
    in_world (os_system shell (convert_command name delay));;
    in_world clear_video_dir
  else mret tt.

(** [display] called once per environment state, in order. *)
Definition displays (envs : list Env) : M State unit :=
  for_each envs display.

End EnvViewer.

(** * Vocabulary of the properties *)

Local Open Scope Q_scope.

(** The value of [x] with its fractional part dropped, written with the
    library's floor and ceiling. *)
Definition truncate (x : Q) : Z :=
  if Qle_bool 0 x then Qfloor x else Qceiling x.

(** [z] is an integer nearest to [v]. *)
Definition rounds_to (v : Q) (z : Z) : Prop := Qabs (v - inject_Z z) <= 1 # 2.

Import SimulationSurface.

(** A world point as the module stores it: a [(2, 1)] column vector. *)
Definition column (x y : Q) : ndarray := Arr2 [[x]; [y]].

(** The surface of the examples: 400 by 400, scale 15, origin at the world
    origin. *)
Definition surface_at_zero : t := set_origin (column 0 0) (__init__ (400, 400)%Z).

(** In binary64: a world point as a [(2, 1)] column vector, and the new
    400 by 400 surface once [K_k] has been pressed five times. *)
Definition point64 (x y : Binary64.float) : Binary64.ndarray :=
  Binary64.Arr2 [[x]; [y]].

Definition panned_right64 : Binary64.t :=
  fold_left Binary64.handle_event (repeat (KEYDOWN K_k) 5)
    (Binary64.__init__ (400, 400)%Z).

(** The events of a list handled one after the other. *)
Definition handle_all (events : list Event) (self : t) : t :=
  fold_left handle_event events self.

(** Two viewports that agree up to the representation of their rationals. *)
Definition same_view (a b : t) : Prop :=
  width a = width b /\ height a = height b /\ canvas a = canvas b /\
  origin a = origin b /\
  scaling a == scaling b /\ centering_position a == centering_position b.

(** The positions whose difference with the [(2, 1)] offset is a
    two-dimensional array with entries at [[0, 0]] and [[1, 0]]: non-empty
    flat arrays, and arrays of one or two non-empty rows. *)
Definition has_first_column (position : ndarray) : bool :=
  match position with
  | Arr1 (_ :: _) => true
  | Arr2 [_ :: _] => true
  | Arr2 [_ :: _; _ :: _] => true
  | _ => false
  end.

Local Open Scope string_scope.

(** The number a string of decimal digits stands for. *)
Definition number_of (s : string) : option N :=
  option_map N.of_uint (NilEmpty.uint_of_string s).

Import EnvViewer.

(** The file of frame [i] of the session [name]:
    ["{}/{}_{:04d}.bmp".format(TMP_FOLDER, name, i)]. *)
Definition frame_path (name : string) (i : Z) : string :=
  TMP_FOLDER ++ "/" ++ name ++ "_" ++ format_04d i ++ ".bmp".

(** The files of the frames 1 to [n]. *)
Definition frame_paths (name : string) (n : nat) : list string :=
  map (fun i => frame_path name (Z.of_nat i)) (seq 1 n).

(** An array with entries at [[0, 0]] and [[1, 0]]. *)
Definition indexable (a : ndarray) : bool :=
  match a with
  | Arr2 ((_ :: _) :: (_ :: _) :: _) => true
  | _ => false
  end.

(** An array of two non-empty rows, as a [(2, 1)] column vector is. *)
Definition two_rows (a : ndarray) : bool :=
  match a with
  | Arr2 [_ :: _; _ :: _] => true
  | _ => false
  end.

(** An environment [display] can draw: there is an agent, and the agent and
    every obstacle hold their position as a two-dimensional array. *)
Definition drawable (env : Env) : bool :=
  match dynamics env with
  | Some d =>
      two_rows (position d)
      && forallb (fun o => indexable (ob_position o)) (obstacles (scene env))
  | None => false
  end.

(** The viewer as [__init__] leaves it. *)
Definition new_viewer (record_video : bool) (now : string) : EnvViewer.t :=
  if record_video
  then EnvViewer.mk true [] (SimulationSurface.__init__ (SCREEN_WIDTH, SCREEN_HEIGHT))
         (Some 0%Z) (Some ("obstacle_" ++ now))
  else EnvViewer.mk false [] (SimulationSurface.__init__ (SCREEN_WIDTH, SCREEN_HEIGHT))
         None None.

(** A recording viewer that has saved the frames 1 to [k] of the session
    [name] as regular files, and nothing else, in the temporary directory. *)
Definition recording (name : string) (k : nat) (st : State) : Prop :=
  record_video (self st) = true /\
  frame (self st) = Some (Z.of_nat k) /\
  video_name (self st) = Some name /\
  ~ (scaling (sim_surface (self st)) == 0)%Q /\
  files (world st) !! TMP_FOLDER = Some Dir /\
  tree TMP_FOLDER (files (world st)) = list_to_set (frame_paths name k) /\
  (forall p, (p ∈ frame_paths name k) -> files (world st) !! p = Some File).

(** The world after the first statement of [make_video_dir]: the output
    directory is made when nothing has its name. *)
Definition with_out_folder (w : World) : World :=
  match files w !! OUT_FOLDER with
  | Some _ => w
  | None => {| files := <[OUT_FOLDER := Dir]> (files w);
               log := (log w ++ [Mkdir OUT_FOLDER])%list |}
  end.

(** Surfaces that differ in their pixels only. *)
Definition same_frame (a b : SimulationSurface.t) : Prop :=
  width a = width b /\ height a = height b /\ origin a = origin b /\
  scaling a = scaling b /\ centering_position a = centering_position b.

(** An environment with one obstacle and an agent, and an empty world. *)
Definition example_env : Env :=
  {| scene := {| obstacles := [{| ob_position := column 5 5; ob_radius := 1 |}] |};
     dynamics := Some {| position := column 1 2 |};
     SIMULATION_FREQUENCY := 15 |}.

Definition empty_world : World := {| files := ∅; log := [] |}.

(** An environment without agent and without obstacles. *)
Definition empty_env (frequency : Z) : Env :=
  {| scene := {| obstacles := [] |};
     dynamics := None;
     SIMULATION_FREQUENCY := frequency |}.

(** A viewer that has recorded one frame, and encoders that fail and leave
    the files alone. *)
Definition recorded_state : State :=
  {| self := new_viewer true "2018-03-01-12:00:00";
     world := {| files := {[ "out" := Dir; "out/tmp" := Dir;
                             "out/tmp/obstacle_2018-03-01-12:00:00_0001.bmp" := File ]};
                 log := [] |} |}.

Definition failing_shell (command : string) (fs : gmap string kind)
    : gmap string kind * Z :=
  (fs, 1%Z).

(** ** Vocabulary of the draw pass *)

(** The entries at [[0, 0]] and [[1, 0]] of an array that has them. *)
Definition corner (a : ndarray) : Q * Q :=
  match a with
  | Arr2 ((x :: _) :: (y :: _) :: _) => (x, y)
  | _ => (0, 0)%Q
  end.

(** The pixel of the world point held in [a], on a surface whose origin is
    a two-dimensional array. *)
Definition pixel (sf : SimulationSurface.t) (a : ndarray) : Z * Z :=
  (pix sf (fst (corner a) - fst (corner (origin sf)))%Q,
   pix sf (snd (corner a) - snd (corner (origin sf)))%Q).

(** What the draw pass paints: the background, an obstacle, the agent. *)
Definition background (sf : SimulationSurface.t) : draw_call :=
  DrawRect Scene2dGraphics.WHITE [0%Z; 0%Z; width sf; height sf] 0.

Definition obstacle_circle (sf : SimulationSurface.t) (o : Obstacle) : draw_call :=
  DrawCircle Scene2dGraphics.GREY (pixel sf (ob_position o)) (pix sf (ob_radius o)) 0.

Definition agent_circle (sf : SimulationSurface.t) (d : Dynamics) : draw_call :=
  DrawCircle Scene2dGraphics.GREY (pixel sf (position d)) (pix sf 0.2) 1.

(** A surface with more calls painted on it. *)
Definition draws (calls : list draw_call) (sf : SimulationSurface.t) : SimulationSurface.t :=
  SimulationSurface.mk (width sf) (height sf) (canvas sf ++ calls)%list (origin sf)
    (scaling sf) (centering_position sf).

(** The surface once [move_display_window_to] has succeeded. *)
Definition recentred (sf : SimulationSurface.t) (P : ndarray) : SimulationSurface.t :=
  match move_display_window_to sf P with
  | Ok sf' => sf'
  | Raise _ => sf
  end.

(** The surface after the draw pass of [display]: recentred, with the
    background, the obstacles and the agent painted in this order. *)
Definition frame_drawn (env : Env) (sf : SimulationSurface.t) : SimulationSurface.t :=
  let sf1 := recentred sf (window_position env) in
  draws (background sf1
         :: map (obstacle_circle sf1) (obstacles (scene env))
         ++ match dynamics env with
            | Some d => [agent_circle sf1 d]
            | None => []
            end)%list sf1.

(** How many key-down events of [events] carry the key [key]. *)
Fixpoint presses (key : Z) (events : list Event) : Z :=
  match events with
  | [] => 0
  | KEYDOWN k :: rest => (if (k =? key)%Z then 1 else 0) + presses key rest
  | _ :: rest => presses key rest
  end.

(** The viewport with the scale multiplied by 1.3 [zoom] times and the
    centering fraction moved by [pan] steps of 0.1. *)
Definition zoomed_and_panned (zoom pan : Z) (self : SimulationSurface.t)
    : SimulationSurface.t :=
  set_scaling (scaling self * SCALING_FACTOR ^ zoom)%Q
    (set_centering_position (centering_position self + MOVING_FACTOR * inject_Z pan)%Q self).

(** The positions numpy can subtract a [(2, 1)] array from: flat arrays and
    arrays of one or two rows. *)
Definition broadcasts (P : ndarray) : bool :=
  match P with
  | Arr1 _ => true
  | Arr2 [_] => true
  | Arr2 [_; _] => true
  | Arr2 _ => false
  end.

(** * Properties *)

Local Open Scope Q_scope.

(** ** Sequencing *)

Lemma bind_ok {S A B} (m : M S A) (k : A -> M S B) (s s' : S) (a : A) :
  m s = (Ok a, s') -> (m ≫= k) s = k a s'.
Proof. intros H. unfold mbind, M_bind. now rewrite H. Qed.

Lemma bind_raise {S A B} (m : M S A) (k : A -> M S B) (s s' : S) (e : exn) :
  m s = (Raise e, s') -> (m ≫= k) s = (Raise e, s').
Proof. intros H. unfold mbind, M_bind. now rewrite H. Qed.

(** ** Integer conversion *)

Lemma py_int_nonneg (x : Q) : 0 <= x -> py_int x = Qfloor x.
Proof.
  destruct x as [n d]. unfold Qle, py_int, Qfloor. simpl. intros Hn.
  apply Z.quot_div_nonneg; lia.
Qed.

Lemma py_int_nonpos (x : Q) : x <= 0 -> py_int x = Qceiling x.
Proof.
  destruct x as [n d]. unfold Qle, py_int, Qceiling, Qfloor. simpl. intros Hn.
  rewrite <- (Z.opp_involutive n) at 1.
  rewrite Z.quot_opp_l by lia.
  f_equal. apply Z.quot_div_nonneg; lia.
Qed.

Lemma py_int_truncate (x : Q) : py_int x = truncate x.
Proof.
  unfold truncate. destruct (Qle_bool 0 x) eqn:E.
  - apply py_int_nonneg. now apply Qle_bool_iff.
  - apply py_int_nonpos. apply Qlt_le_weak. apply Qnot_le_lt.
    intros H. apply Qle_bool_iff in H. congruence.
Qed.

Lemma py_int_comp (x y : Q) : x == y -> py_int x = py_int y.
Proof.
  intros E. rewrite !py_int_truncate. unfold truncate.
  assert (Qle_bool 0 x = Qle_bool 0 y) as ->.
  { apply eq_true_iff_eq. rewrite !Qle_bool_iff. now rewrite E. }
  destruct (Qle_bool 0 y); [apply Qfloor_comp | apply Qceiling_comp]; exact E.
Qed.

Lemma py_int_le (x y : Q) : x <= y -> (py_int x <= py_int y)%Z.
Proof.
  intros Hxy. destruct (Qlt_le_dec x 0) as [Hx | Hx].
  - rewrite (py_int_nonpos x) by now apply Qlt_le_weak.
    destruct (Qlt_le_dec y 0) as [Hy | Hy].
    + rewrite (py_int_nonpos y) by now apply Qlt_le_weak.
      now apply Qceiling_resp_le.
    + rewrite (py_int_nonneg y) by assumption.
      transitivity 0%Z.
      * change 0%Z with (Qceiling 0). apply Qceiling_resp_le. now apply Qlt_le_weak.
      * change 0%Z with (Qfloor 0). now apply Qfloor_resp_le.
  - rewrite (py_int_nonneg x) by assumption.
    rewrite (py_int_nonneg y) by (eapply Qle_trans; eassumption).
    now apply Qfloor_resp_le.
Qed.

Lemma py_int_inject (z : Z) : py_int (inject_Z z) = z.
Proof. unfold py_int. simpl. apply Z.quot_1_r. Qed.

(** ** The viewport *)

Lemma scaling_nonzero (self : SimulationSurface.t) :
  ~ scaling self == 0 ->
  Qeq_bool (scaling self) 0 = false /\ Qeq_bool (2 * scaling self) 0 = false.
Proof.
  intros H. split; apply not_true_is_false; intros E; apply Qeq_bool_iff in E.
  - contradiction.
  - apply H. apply (Qmult_inj_l _ _ 2); [discriminate | now rewrite E].
Qed.

Lemma move_display_window_to_column (self : SimulationSurface.t) (x y : Q) :
  ~ scaling self == 0 ->
  move_display_window_to self (column x y) =
  Ok (set_origin
        (column (x - centering_position self * inject_Z (width self) / scaling self)
                (y - inject_Z (height self) / (2 * scaling self))) self).
Proof.
  intros H. destruct (scaling_nonzero self H) as [E1 E2].
  unfold move_display_window_to, py_div. rewrite E1, E2. reflexivity.
Qed.

Lemma move_display_window_to_flat (self : SimulationSurface.t) (v : list Q) :
  ~ scaling self == 0 ->
  move_display_window_to self (Arr1 v) =
  Ok (set_origin
        (Arr2 [map (fun a => a - centering_position self * inject_Z (width self) / scaling self) v;
               map (fun a => a - inject_Z (height self) / (2 * scaling self)) v]) self).
Proof.
  intros H. destruct (scaling_nonzero self H) as [E1 E2].
  unfold move_display_window_to, py_div. rewrite E1, E2. reflexivity.
Qed.

Lemma pos2pix_indexed (self : SimulationSurface.t) (x y ox oy : Q) :
  index2 (origin self) 0 0 = Ok ox ->
  index2 (origin self) 1 0 = Ok oy ->
  pos2pix self x y = Ok (pix self (x - ox), pix self (y - oy)).
Proof. intros H0 H1. unfold pos2pix. rewrite H0, H1. reflexivity. Qed.

Lemma pos2pix_flat_origin (self : SimulationSurface.t) (v : list Q) (x y : Q) :
  origin self = Arr1 v -> pos2pix self x y = Raise IndexError.
Proof. intros H. unfold pos2pix. rewrite H. reflexivity. Qed.

(** C1, as amended: for every world point [(x, y)], every origin held as a
    two-dimensional array with entries [ox] and [oy] in its first column and
    every scale, [pos2pix] returns per axis the difference to the origin,
    scaled and truncated toward zero (floor when it is non-negative, ceiling
    when it is negative), not rounded to the nearest integer. *)
Theorem pos2pix_truncates (self : SimulationSurface.t) (x y ox oy : Q) :
  index2 (origin self) 0 0 = Ok ox ->
  index2 (origin self) 1 0 = Ok oy ->
  pos2pix self x y =
  Ok (truncate ((x - ox) * scaling self), truncate ((y - oy) * scaling self)).
Proof.
  intros H0 H1. rewrite (pos2pix_indexed self x y ox oy H0 H1).
  unfold pix. now rewrite !py_int_truncate.
Qed.

Lemma pos2pix_truncates_witness :
  pos2pix surface_at_zero 0.25 (-0.25) = Ok (3, -3)%Z.
Proof.
  rewrite (pos2pix_truncates surface_at_zero 0.25 (-0.25) 0 0);
    reflexivity.
Defined.

(** C1 fails as stated: at scale 15 and origin (0, 0) the world point
    (0.25, 0.25) scales to 3.75 per axis; [pos2pix] returns 3, while the
    nearest integer is 4. *)
Lemma pos2pix_not_rounded :
  pos2pix surface_at_zero 0.25 0.25 = Ok (3, 3)%Z /\
  np_round ((0.25 - 0) * scaling surface_at_zero) = 4%Z /\
  ~ rounds_to ((0.25 - 0) * scaling surface_at_zero) 3.
Proof.
  split; [reflexivity | split; [reflexivity |]].
  unfold rounds_to. vm_compute. intros H. apply H. reflexivity.
Qed.

(** C3: for every world point [(x, y)] and every scale [S > 0],
    [move_display_window_to] sets the origin to
    [x - c * width / S] and [y - height / (2 * S)], where [c] is the
    centering fraction, and leaves the rest of the viewport as it was. *)
Theorem move_display_window_to_origin (self : SimulationSurface.t) (x y : Q) :
  0 < scaling self ->
  exists self',
    move_display_window_to self (column x y) = Ok self' /\
    origin self' =
      column (x - centering_position self * inject_Z (width self) / scaling self)
             (y - inject_Z (height self) / (2 * scaling self)) /\
    index2 (origin self') 0 0 =
      Ok (x - centering_position self * inject_Z (width self) / scaling self) /\
    index2 (origin self') 1 0 =
      Ok (y - inject_Z (height self) / (2 * scaling self)) /\
    scaling self' = scaling self /\
    centering_position self' = centering_position self /\
    width self' = width self /\
    height self' = height self /\
    canvas self' = canvas self.
Proof.
  intros HS. eexists. split.
  - apply move_display_window_to_column. intros E. rewrite E in HS. discriminate.
  - repeat split.
Qed.

Lemma move_display_window_to_origin_witness :
  exists self',
    move_display_window_to (SimulationSurface.__init__ (400, 400)%Z) (column 1 2) = Ok self' /\
    index2 (origin self') 0 0 = Ok (1 - 0.5 * inject_Z 400 / 15.0) /\
    scaling self' = 15.0.
Proof.
  destruct (move_display_window_to_origin (SimulationSurface.__init__ (400, 400)%Z) 1 2)
    as (self' & Hm & _ & H0 & _ & HS & _); [reflexivity |].
  exists self'. repeat split; assumption.
Defined.






(** C4, what binary64 does to it: each operation rounds, so the offset
    subtracted by the recentring and added back by [pos2pix] does not
    cancel.  On the new 400 by 400 surface the point (1.1, 2.2) lands on
    the pixel (200, 199), not (200, 200).  Five presses of [K_k] bring the
    centering fraction to 0.9999999999999999, still below 1, and the point
    (300, 0) then lands on the x-pixel 400, the width itself. *)
Lemma recenter_then_pos2pix_binary64 :
  (exists self',
     Binary64.move_display_window_to (Binary64.__init__ (400, 400)%Z)
       (point64 (Binary64.literal 11 10) (Binary64.literal 22 10)) = Ok self' /\
     Binary64.pos2pix self' (Binary64.literal 11 10) (Binary64.literal 22 10)
     = Ok (200, 199)%Z) /\
  Binary64.width panned_right64 = 400%Z /\
  Binary64.scaling panned_right64 = Binary64.of_int 15 /\
  SpecFloat.SFltb (Binary64.of_int 0) (Binary64.centering_position panned_right64) = true /\
  SpecFloat.SFltb (Binary64.centering_position panned_right64) (Binary64.of_int 1) = true /\
  (exists self',
     Binary64.move_display_window_to panned_right64
       (point64 (Binary64.of_int 300) (Binary64.of_int 0)) = Ok self' /\
     Binary64.pos2pix self' (Binary64.of_int 300) (Binary64.of_int 0)
     = Ok (400, 200)%Z).
Proof.
  repeat split; try (eexists; split); vm_compute; reflexivity.
Qed.

(** C5, as amended: for every length [L] and scale [S], [pix] returns
    [L * S] truncated toward zero, which is [floor(L * S)] whenever
    [L * S >= 0]; for every fixed scale [S >= 0] the result is monotonically
    non-decreasing in [L]. *)
Theorem pix_truncates (self : SimulationSurface.t) :
  (forall L, pix self L = truncate (L * scaling self)) /\
  (forall L, 0 <= L * scaling self -> pix self L = Qfloor (L * scaling self)) /\
  (0 <= scaling self ->
   forall L1 L2, L1 <= L2 -> (pix self L1 <= pix self L2)%Z).
Proof.
  split; [| split].
  - intros L. apply py_int_truncate.
  - intros L HL. now apply py_int_nonneg.
  - intros HS L1 L2 HL. apply py_int_le. now apply Qmult_le_compat_r.
Qed.

Lemma pix_truncates_witness :
  pix surface_at_zero 0.5 = Qfloor (0.5 * 15.0) /\
  (pix surface_at_zero 0.5 <= pix surface_at_zero 1)%Z.
Proof.
  destruct (pix_truncates surface_at_zero) as (_ & Hfloor & Hmono). split.
  - apply Hfloor. discriminate.
  - apply Hmono; discriminate.
Defined.

(** C5 fails as stated: at scale 15 the length -0.5 scales to -7.5, which
    [pix] takes to -7 while the floor is -8; and at the scale -1 the
    lengths 0 and 1 go to 0 and -1, so [pix] decreases. *)
Lemma pix_not_floor :
  pix surface_at_zero (-0.5) = (-7)%Z /\
  Qfloor (-0.5 * scaling surface_at_zero) = (-8)%Z /\
  0 <= 1 /\
  ~ (pix (set_scaling (-1) surface_at_zero) 0
     <= pix (set_scaling (-1) surface_at_zero) 1)%Z.
Proof. repeat split; try reflexivity; try discriminate. vm_compute. intros H. now apply H. Qed.

(** ** Events *)

Lemma same_view_refl (a : SimulationSurface.t) : same_view a a.
Proof. repeat split; reflexivity. Qed.

Lemma same_view_trans (a b c : SimulationSurface.t) : same_view a b -> same_view b c -> same_view a c.
Proof.
  intros (H1 & H2 & H3 & H4 & H5 & H6) (K1 & K2 & K3 & K4 & K5 & K6).
  repeat split; try congruence.
  - now rewrite H5.
  - now rewrite H6.
Qed.

Ltac case_keys :=
  repeat match goal with
         | |- context [Z.eqb ?k ?c] => destruct (Z.eqb_spec k c)
         end;
  subst; try discriminate.

Lemma handle_event_same_view (a b : SimulationSurface.t) (e : Event) :
  same_view a b -> same_view (handle_event a e) (handle_event b e).
Proof.
  intros (H1 & H2 & H3 & H4 & H5 & H6).
  destruct e as [| key | key | ty]; try (repeat split; assumption).
  unfold handle_event. case_keys; repeat split; cbn; try assumption;
    try (now rewrite H5); try (now rewrite H6).
Qed.

Lemma handle_event_swap (self : SimulationSurface.t) (e1 e2 : Event) :
  same_view (handle_event (handle_event self e1) e2)
            (handle_event (handle_event self e2) e1).
Proof.
  destruct e1 as [| k1 | k1 | t1], e2 as [| k2 | k2 | t2];
    try apply same_view_refl.
  unfold handle_event. case_keys; repeat split; cbn; try reflexivity; ring.
Qed.

Lemma handle_all_same_view (events : list Event) (a b : SimulationSurface.t) :
  same_view a b -> same_view (handle_all events a) (handle_all events b).
Proof.
  revert a b. induction events as [| e events IH]; intros a b H; [exact H |].
  cbn. apply IH. now apply handle_event_same_view.
Qed.

Lemma handle_all_permutation (l l' : list Event) (self : SimulationSurface.t) :
  Permutation l l' -> same_view (handle_all l self) (handle_all l' self).
Proof.
  intros HP. revert self.
  induction HP as [| e l l' _ IH | e1 e2 l | l l' l'' _ IH1 _ IH2]; intros self.
  - apply same_view_refl.
  - cbn. apply IH.
  - cbn. apply handle_all_same_view. apply handle_event_swap.
  - eapply same_view_trans; [apply IH1 | apply IH2].
Qed.

(** C6: for every starting scale, two zoom-in key presses ([K_o]) and two
    zoom-out key presses ([K_l]), handled in any order, bring the scale
    back to its starting value, in exact rational arithmetic; nothing else
    of the viewport changes. *)
Theorem zoom_in_out_restores_scaling (self : SimulationSurface.t) (events : list Event) :
  Permutation events [KEYDOWN K_o; KEYDOWN K_o; KEYDOWN K_l; KEYDOWN K_l] ->
  scaling (handle_all events self) == scaling self /\
  same_view (handle_all events self) self.
Proof.
  intros HP.
  assert (same_view (handle_all events self) self) as H.
  { eapply same_view_trans; [apply handle_all_permutation, HP |].
    repeat split; cbn; try reflexivity.
    unfold SCALING_FACTOR. field. }
  split; [apply H | exact H].
Qed.

Lemma zoom_in_out_restores_scaling_witness :
  scaling (handle_all [KEYDOWN K_o; KEYDOWN K_l; KEYDOWN K_l; KEYDOWN K_o]
             (SimulationSurface.__init__ (400, 400)%Z)) == 15.0.
Proof.
  apply (zoom_in_out_restores_scaling (SimulationSurface.__init__ (400, 400)%Z)
           [KEYDOWN K_o; KEYDOWN K_l; KEYDOWN K_l; KEYDOWN K_o]).
  apply perm_skip.
  apply (perm_trans (l' := [KEYDOWN K_l; KEYDOWN K_o; KEYDOWN K_l])).
  - apply perm_skip. apply perm_swap.
  - apply perm_swap.
Defined.

(** C7: [handle_event] changes at most one field of the viewport.  A pan
    key ([K_m], [K_k]) changes the centering fraction by exactly the step
    0.1 down or up and nothing else; a zoom key ([K_l], [K_o]) multiplies
    the scale by 1 / 1.3 or by 1.3 and changes nothing else; every other
    event leaves the viewport as it is.  The origin, the size and the
    pixels are never touched.  Each case gives the viewport that results
    field by field. *)
Theorem handle_event_frame (self : SimulationSurface.t) (event : Event) :
  origin (handle_event self event) = origin self /\
  width (handle_event self event) = width self /\
  height (handle_event self event) = height self /\
  canvas (handle_event self event) = canvas self /\
  (scaling (handle_event self event) = scaling self \/
   centering_position (handle_event self event) = centering_position self) /\
  match event with
  | KEYDOWN key =>
      if (key =? K_m)%Z then
        handle_event self event
        = SimulationSurface.mk (width self) (height self) (canvas self) (origin self)
            (scaling self) (centering_position self - 0.1)
      else if (key =? K_k)%Z then
        handle_event self event
        = SimulationSurface.mk (width self) (height self) (canvas self) (origin self)
            (scaling self) (centering_position self + 0.1)
      else if (key =? K_l)%Z then
        handle_event self event
        = SimulationSurface.mk (width self) (height self) (canvas self) (origin self)
            (scaling self * (1 / 1.3)) (centering_position self)
      else if (key =? K_o)%Z then
        handle_event self event
        = SimulationSurface.mk (width self) (height self) (canvas self) (origin self)
            (scaling self * 1.3) (centering_position self)
      else handle_event self event = self
  | _ => handle_event self event = self
  end.
Proof.
  destruct event as [| key | key | ty];
    try (repeat split; solve [reflexivity | left; reflexivity]).
  unfold handle_event. case_keys; repeat split;
    solve [left; reflexivity | right; reflexivity | reflexivity].
Qed.

(** The viewer forwards every pending event to the viewport and changes
    nothing else of itself; a window-close event is also passed on to the
    environment. *)
Lemma handle_events_run (events : list Event) (st : State) :
  exists calls,
    handle_events events st
    = (Ok tt,
       {| self := EnvViewer.mk (record_video (self st)) (screen (self st))
                    (handle_all events (sim_surface (self st)))
                    (frame (self st)) (video_name (self st));
          world := {| files := files (world st);
                      log := (log (world st) ++ calls)%list |} |}).
Proof.
  revert st. induction events as [| e events IH]; intros [[rv scr sf fr vn] [fs lg]].
  - exists []. cbn. now rewrite app_nil_r.
  - unfold handle_events. cbn [for_each]. fold (handle_events events).
    destruct (IH {| self := EnvViewer.mk rv scr (handle_event sf e) fr vn;
                    world := {| files := fs;
                                log := if e is QUIT then (lg ++ [EnvClose])%list else lg |} |})
      as (calls & E).
    cbn [self world record_video screen sim_surface frame video_name files log] in E.
    exists (if e is QUIT then EnvClose :: calls else calls).
    destruct e;
      (erewrite bind_ok by reflexivity);
      (etransitivity; [exact E |]);
      try reflexivity.
    cbn [handle_all fold_left]. now rewrite <- app_assoc.
Qed.

(** ** The domain of [pos2pix] *)

Lemma handle_event_origin (self : SimulationSurface.t) (e : Event) :
  origin (handle_event self e) = origin self.
Proof.
  destruct e as [| key | key | ty]; try reflexivity.
  unfold handle_event. case_keys; reflexivity.
Qed.

Lemma handle_all_origin (events : list Event) (self : SimulationSurface.t) :
  origin (handle_all events self) = origin self.
Proof.
  revert self. induction events as [| e events IH]; intros self; [reflexivity |].
  cbn. now rewrite IH, handle_event_origin.
Qed.

(** C10, as amended: [pos2pix] raises [IndexError] on a freshly constructed
    surface, whose origin is a flat two-element array, and keeps raising
    whatever events are handled, since they leave the origin alone.  After
    [move_display_window_to] has been called with a position, [pos2pix]
    returns a pixel exactly when that position broadcasts against the
    [(2, 1)] offset to a two-dimensional origin with a first column: a
    [(2, 1)] column vector, and also a non-empty flat array such as the
    default [np.array([0, 0])], or a one-row array. *)
Theorem pos2pix_domain :
  (forall size events x y,
     pos2pix (handle_all events (SimulationSurface.__init__ size)) x y
     = Raise IndexError) /\
  (forall (self : SimulationSurface.t) (position : ndarray) (x y : Q),
     ~ scaling self == 0 ->
     (exists self' p,
        move_display_window_to self position = Ok self' /\
        pos2pix self' x y = Ok p)
     <-> has_first_column position = true).
Proof.
  split.
  { intros size events x y. eapply pos2pix_flat_origin.
    rewrite handle_all_origin. reflexivity. }
  intros self position x y HS.
  destruct (scaling_nonzero self HS) as [E1 E2].
  unfold move_display_window_to, py_div. rewrite E1, E2. cbn.
  split.
  - intros (self' & p & Hm & Hp).
    destruct position as [[| a v] | [| [| a r0] [| [| b r1] [| r2 rows]]]];
      cbn in Hm; try discriminate; try reflexivity;
      injection Hm as <-; cbn in Hp; discriminate.
  - intros H.
    destruct position as [[| a v] | [| [| a r0] [| [| b r1] [| r2 rows]]]];
      try discriminate; cbn; eexists _, _; split; reflexivity.
Qed.

Lemma pos2pix_domain_witness :
  exists self' p,
    move_display_window_to (SimulationSurface.__init__ (400, 400)%Z) (column 1 2) = Ok self' /\
    pos2pix self' 1 2 = Ok p.
Proof.
  apply (proj2 pos2pix_domain (SimulationSurface.__init__ (400, 400)%Z) (column 1 2) 1 2).
  - discriminate.
  - reflexivity.
Defined.

(** C10 fails as stated: recentring a fresh surface on the flat array
    [np.array([0, 0])], which is what [window_position] returns without an
    agent, gives a [(2, 2)] origin, and [pos2pix] returns a pixel. *)
Lemma pos2pix_defined_after_flat_position :
  exists self',
    move_display_window_to (SimulationSurface.__init__ (400, 400)%Z) (Arr1 [0; 0]) = Ok self' /\
    origin self' = Arr2 [[0 - 0.5 * inject_Z 400 / 15.0; 0 - 0.5 * inject_Z 400 / 15.0];
                         [0 - inject_Z 400 / (2 * 15.0); 0 - inject_Z 400 / (2 * 15.0)]] /\
    pos2pix self' 0 0 = Ok (200, 200)%Z.
Proof. eexists. repeat split. Qed.

(** ** The draw pass *)

Lemma display_dynamics_none (sf : SimulationSurface.t) :
  Scene2dGraphics.display_dynamics None sf = (Raise AttributeError, sf).
Proof. reflexivity. Qed.

Lemma on_surface_frame {A} (m : M SimulationSurface.t A) (st st' : EnvViewer.State) (r : res A) :
  EnvViewer.on_surface m st = (r, st') ->
  m (EnvViewer.sim_surface (EnvViewer.self st))
  = (r, EnvViewer.sim_surface (EnvViewer.self st')) /\
  EnvViewer.record_video (EnvViewer.self st') = EnvViewer.record_video (EnvViewer.self st) /\
  EnvViewer.screen (EnvViewer.self st') = EnvViewer.screen (EnvViewer.self st) /\
  EnvViewer.frame (EnvViewer.self st') = EnvViewer.frame (EnvViewer.self st) /\
  EnvViewer.video_name (EnvViewer.self st') = EnvViewer.video_name (EnvViewer.self st) /\
  EnvViewer.world st' = EnvViewer.world st.
Proof.
  unfold EnvViewer.on_surface, zoom.
  destruct (m (EnvViewer.sim_surface (EnvViewer.self st))) as [r0 sf'].
  intros [= <- <-]. repeat split.
Qed.

(** Split the first statement of a sequence on its outcome. *)
Ltac step E :=
  match goal with
  | |- context [mbind ?k ?m ?s] =>
      destruct (m s) as [[? | ?] ?] eqn:E;
      [rewrite (bind_ok m k _ _ _ E) | rewrite (bind_raise m k _ _ _ E)]
  end.

Lemma display_without_agent (sc : Scene) (f : Z) (st : EnvViewer.State) :
  exists e st',
    EnvViewer.display {| scene := sc; dynamics := None; SIMULATION_FREQUENCY := f |} st
    = (Raise e, st') /\
    EnvViewer.screen (EnvViewer.self st') = EnvViewer.screen (EnvViewer.self st) /\
    EnvViewer.frame (EnvViewer.self st') = EnvViewer.frame (EnvViewer.self st) /\
    EnvViewer.world st' = EnvViewer.world st.
Proof.
  unfold EnvViewer.display. cbn [dynamics scene].
  step E1.
  - apply on_surface_frame in E1 as (_ & _ & S1 & F1 & _ & W1).
    step E2.
    + apply on_surface_frame in E2 as (_ & _ & S2 & F2 & _ & W2).
      step E3.
      * apply on_surface_frame in E3 as (E3 & _). discriminate.
      * apply on_surface_frame in E3 as (_ & _ & S3 & F3 & _ & W3).
        eexists _, _. split; [reflexivity |]. repeat split; congruence.
    + apply on_surface_frame in E2 as (_ & _ & S2 & F2 & _ & W2).
      eexists _, _. split; [reflexivity |]. repeat split; congruence.
  - apply on_surface_frame in E1 as (_ & _ & S1 & F1 & _ & W1).
    eexists _, _. split; [reflexivity |]. repeat split; congruence.
Qed.

(** C2: the draw pass with no agent.  The claim is that the agent step is
    skipped and nothing is raised; [display] hands the missing agent to
    [display_dynamics], which reads its position, so whatever the scene the
    call raises, and the frame is neither shown nor saved.  On a new viewer
    and a scene without obstacles the exception is [AttributeError], raised
    once the background has been painted. *)
Theorem display_raises_without_agent :
  (forall (sc : Scene) (f : Z) (st : State),
     exists e st',
       display {| scene := sc; dynamics := None; SIMULATION_FREQUENCY := f |} st
       = (Raise e, st') /\
       screen (self st') = screen (self st) /\
       frame (self st') = frame (self st) /\
       world st' = world st) /\
  (forall (rv : bool) (now : string) (w : World) (f : Z),
     let st := {| self := new_viewer rv now; world := w |} in
     fst (display (empty_env f) st) = Raise AttributeError /\
     canvas (sim_surface (self (snd (display (empty_env f) st))))
     = [DrawRect WHITE [0; 0; 400; 400]%Z 0] /\
     world (snd (display (empty_env f) st)) = w).
Proof.
  split.
  - apply display_without_agent.
  - intros [|] now w f; repeat split.
Qed.

(** ** Text *)

Local Open Scope string_scope.

Lemma append_cons (c : ascii) (a b : string) : String c a ++ b = String c (a ++ b).
Proof. reflexivity. Qed.

Lemma string_length_app (a b : string) :
  String.length (a ++ b) = (String.length a + String.length b)%nat.
Proof. induction a as [| c a IH]; simpl; [reflexivity | now rewrite IH]. Qed.

Lemma app_inv_tail (a b t : string) : a ++ t = b ++ t -> a = b.
Proof.
  revert b. induction a as [| c a IH]; intros [| d b] H.
  - reflexivity.
  - apply (f_equal String.length) in H.
    rewrite !string_length_app in H. simpl in H. lia.
  - apply (f_equal String.length) in H.
    rewrite !string_length_app in H. simpl in H. lia.
  - simpl in H. injection H as -> H. f_equal. now apply IH.
Qed.

Lemma length_zeros (k : nat) : String.length (zeros k) = k.
Proof. induction k; cbn; congruence. Qed.

Lemma number_of_zeros (k : nat) (s : string) :
  number_of (zeros k ++ s) = number_of s.
Proof.
  induction k as [| k IH]; [reflexivity |].
  rewrite <- IH. unfold number_of. cbn [zeros]. rewrite append_cons. cbn.
  now destruct (NilEmpty.uint_of_string (zeros k ++ s)).
Qed.

Lemma number_of_digits (n : N) : number_of (digits n) = Some n.
Proof.
  unfold number_of, digits. rewrite NilEmpty.usu. cbn.
  f_equal. apply DecimalN.Unsigned.of_to.
Qed.

Lemma format_04d_nonneg (z : Z) :
  (0 <= z)%Z ->
  format_04d z = zeros (4 - String.length (digits (Z.to_N z))) ++ digits (Z.to_N z).
Proof.
  intros H. unfold format_04d.
  destruct (Z.ltb_spec z 0); [lia |].
  now replace (Z.abs_N z) with (Z.to_N z) by lia.
Qed.

Lemma number_of_format_04d (z : Z) :
  (0 <= z)%Z -> number_of (format_04d z) = Some (Z.to_N z).
Proof.
  intros H. rewrite format_04d_nonneg by exact H.
  rewrite number_of_zeros. apply number_of_digits.
Qed.

Lemma format_04d_inj (i j : Z) :
  (0 <= i)%Z -> (0 <= j)%Z -> format_04d i = format_04d j -> i = j.
Proof.
  intros Hi Hj H. apply (f_equal number_of) in H.
  rewrite !number_of_format_04d in H by assumption.
  injection H as H. lia.
Qed.

Lemma length_format_04d_ge (z : Z) :
  (0 <= z)%Z -> (4 <= String.length (format_04d z))%nat.
Proof.
  intros H. rewrite format_04d_nonneg by exact H.
  rewrite string_length_app, length_zeros. lia.
Qed.

Lemma length_format_04d (z : Z) :
  (0 <= z <= 9999)%Z -> String.length (format_04d z) = 4%nat.
Proof.
  intros H.
  assert (forallb (fun i => Nat.eqb (String.length (format_04d (Z.of_nat i))) 4)
            (seq 0 (Z.to_nat 10000)) = true) as Hall by (vm_compute; reflexivity).
  rewrite forallb_forall in Hall.
  specialize (Hall (Z.to_nat z)).
  rewrite Z2Nat.id in Hall by lia.
  apply Nat.eqb_eq, Hall, in_seq. lia.
Qed.

Lemma slashless_app (a b : string) :
  slashless (a ++ b) = slashless a && slashless b.
Proof.
  induction a as [| c a IH]; [reflexivity |].
  rewrite append_cons. cbn. rewrite IH. now destruct (Ascii.eqb c "/").
Qed.

Lemma slashless_zeros (k : nat) : slashless (zeros k) = true.
Proof. induction k; cbn; auto. Qed.

Lemma slashless_uint (d : Decimal.uint) :
  slashless (NilEmpty.string_of_uint d) = true.
Proof. induction d; cbn; auto. Qed.

Lemma slashless_format_04d (z : Z) : slashless (format_04d z) = true.
Proof.
  unfold format_04d, digits. destruct (z <? 0)%Z;
    now rewrite !slashless_app, slashless_zeros, slashless_uint.
Qed.

Lemma append_nil_l (a : string) : "" ++ a = a.
Proof. reflexivity. Qed.

Lemma string_app_assoc (a b c : string) : (a ++ b) ++ c = a ++ (b ++ c).
Proof.
  induction a as [| x a IH]; [reflexivity |].
  rewrite !append_cons. now rewrite IH.
Qed.

Lemma prefix_app (a b : string) : String.prefix a (a ++ b) = true.
Proof.
  induction a as [| x a IH]; [now destruct b |].
  rewrite append_cons. cbn. destruct (ascii_dec x x); [exact IH | contradiction].
Qed.

Lemma head_of_app (d b : string) :
  slashless b = true -> head_of (d ++ "/" ++ b) = d ++ "/".
Proof.
  intros Hb. induction d as [| x d IH].
  - rewrite append_nil_l, append_cons, append_nil_l. cbn. now rewrite Hb.
  - rewrite !(append_cons x d). cbn [head_of].
    rewrite slashless_app, append_cons. cbn [slashless].
    rewrite Ascii.eqb_refl. cbn [negb andb]. rewrite andb_false_r.
    now rewrite <- append_cons, IH.
Qed.

(** ** Frame files *)

Lemma frame_path_below (name : string) (i : Z) :
  below TMP_FOLDER (frame_path name i) = true.
Proof.
  unfold below, frame_path. rewrite <- string_app_assoc. apply prefix_app.
Qed.

Lemma frame_path_dirname (name : string) (i : Z) :
  slashless name = true -> dirname (frame_path name i) = TMP_FOLDER.
Proof.
  intros H. unfold dirname, frame_path. rewrite head_of_app.
  - reflexivity.
  - rewrite !slashless_app, H, slashless_format_04d. reflexivity.
Qed.

Lemma frame_path_inj (name : string) (i j : Z) :
  (0 <= i)%Z -> (0 <= j)%Z -> frame_path name i = frame_path name j -> i = j.
Proof.
  intros Hi Hj H. unfold frame_path in H.
  do 4 apply String.app_inj in H.
  apply app_inv_tail in H. now apply format_04d_inj.
Qed.

(** ** The file system *)

Lemma os_mkdir_new (p : string) (w : World) :
  files w !! p = None ->
  parent p (files w) = Some Dir ->
  os_mkdir p w
  = (Ok tt, {| files := <[p := Dir]> (files w); log := log w ++ [Mkdir p] |}).
Proof.
  intros Hnew Hdir. unfold os_mkdir, mbind, M_bind, get.
  rewrite Hdir, Hnew. reflexivity.
Qed.

Lemma pygame_image_save_ok (px : list draw_call) (p : string) (w : World) :
  parent p (files w) = Some Dir ->
  files w !! p <> Some Dir ->
  pygame_image_save px p w
  = (Ok tt, {| files := <[p := File]> (files w); log := log w ++ [ImageSave p px] |}).
Proof.
  intros Hdir Hp. unfold pygame_image_save, mbind, M_bind, get.
  rewrite Hdir. destruct (files w !! p) as [[|] |]; [reflexivity | contradiction | reflexivity].
Qed.

Lemma elem_of_tree (d q : string) (fs : gmap string kind) :
  q ∈ tree d fs <-> below d q = true /\ is_Some (fs !! q).
Proof. unfold tree. now rewrite elem_of_filter, elem_of_dom. Qed.

Lemma tree_insert_below (d p : string) (k : kind) (fs : gmap string kind) :
  below d p = true -> tree d (<[p := k]> fs) = {[p]} ∪ tree d fs.
Proof.
  intros H. apply set_eq. intros q.
  rewrite elem_of_union, !elem_of_tree, elem_of_singleton, lookup_insert_is_Some.
  split.
  - intros (Hb & [-> | (_ & Hq)]); tauto.
  - intros [-> | (Hb & Hq)]; [tauto |].
    split; [exact Hb |]. destruct (decide (p = q)); tauto.
Qed.

Lemma tree_insert_outside (d p : string) (k : kind) (fs : gmap string kind) :
  below d p = false -> tree d (<[p := k]> fs) = tree d fs.
Proof.
  intros H. apply set_eq. intros q.
  rewrite !elem_of_tree, lookup_insert_is_Some.
  split; [| intros (Hb & Hq); split; [exact Hb |]; destruct (decide (p = q)); tauto].
  intros (Hb & [-> | (_ & Hq)]); [congruence | tauto].
Qed.

Lemma lookup_rmtree (d q : string) (fs : gmap string kind) :
  filter (fun e => e.1 ≠ d ∧ below d e.1 = false) fs !! q
  = if bool_decide (q ≠ d ∧ below d q = false) then fs !! q else None.
Proof.
  apply option_eq. intros k. rewrite map_lookup_filter_Some. cbn [fst].
  case_bool_decide as H; [tauto |]. split; [tauto | discriminate].
Qed.

Lemma tree_rmtree (d : string) (fs : gmap string kind) :
  tree d (filter (fun e => e.1 ≠ d ∧ below d e.1 = false) fs) = ∅.
Proof.
  apply set_eq. intros q.
  rewrite elem_of_tree, lookup_rmtree, elem_of_empty.
  split; [| tauto]. intros (H1 & H2).
  case_bool_decide as H; [destruct H; congruence | now destruct H2].
Qed.

Lemma clear_video_dir_run (w : World) :
  clear_video_dir w
  = (Ok tt,
     match files w !! TMP_FOLDER with
     | Some Dir =>
         {| files := filter (fun e => e.1 ≠ TMP_FOLDER ∧ below TMP_FOLDER e.1 = false)
                       (files w);
            log := (log w ++ [Rmtree TMP_FOLDER])%list |}
     | Some File => {| files := files w; log := (log w ++ [Rmtree TMP_FOLDER])%list |}
     | None => w
     end).
Proof.
  unfold clear_video_dir, os_path_exists, shutil_rmtree, mbind, M_bind, get, mret, M_ret.
  destruct (files w !! TMP_FOLDER) as [[|] |] eqn:E; cbn; rewrite ?E; reflexivity.
Qed.

Lemma make_video_dir_run (w : World) :
  make_video_dir w
  = os_mkdir TMP_FOLDER (snd (clear_video_dir (with_out_folder w))).
Proof.
  unfold make_video_dir.
  rewrite (bind_ok _ _ w w (if files w !! OUT_FOLDER is Some _ then true else false))
    by reflexivity.
  assert ((if negb (if files w !! OUT_FOLDER is Some _ then true else false)
           then os_mkdir OUT_FOLDER else mret ()) w = (Ok tt, with_out_folder w)) as E1.
  { unfold with_out_folder. destruct (files w !! OUT_FOLDER) as [k |] eqn:Ho; cbn [negb].
    - reflexivity.
    - now apply os_mkdir_new. }
  rewrite (bind_ok _ _ _ _ _ E1).
  rewrite (bind_ok _ _ _ _ _ (clear_video_dir_run _)).
  now rewrite clear_video_dir_run.
Qed.

Lemma make_video_dir_spec (w : World) :
  files w !! OUT_FOLDER <> Some File ->
  files w !! TMP_FOLDER <> Some File ->
  exists w',
    make_video_dir w = (Ok tt, w') /\
    files w' !! OUT_FOLDER = Some Dir /\
    files w' !! TMP_FOLDER = Some Dir /\
    ((files w !! TMP_FOLDER = None -> tree TMP_FOLDER (files w) = ∅) ->
     tree TMP_FOLDER (files w') = ∅) /\
    (forall p, p <> OUT_FOLDER -> p <> TMP_FOLDER -> below TMP_FOLDER p = false ->
               files w' !! p = files w !! p).
Proof.
  intros Hout Htmp. rewrite make_video_dir_run.
  assert (files (with_out_folder w) !! OUT_FOLDER = Some Dir) as Ho1.
  { unfold with_out_folder. destruct (files w !! OUT_FOLDER) as [[|] |] eqn:Ho;
      [contradiction | exact Ho | cbn [files]; apply lookup_insert_eq]. }
  assert (files (with_out_folder w) !! TMP_FOLDER = files w !! TMP_FOLDER) as Ht1.
  { unfold with_out_folder. destruct (files w !! OUT_FOLDER); [reflexivity |].
    cbn [files]. now apply lookup_insert_ne. }
  assert (tree TMP_FOLDER (files (with_out_folder w)) = tree TMP_FOLDER (files w)) as Htr1.
  { unfold with_out_folder. destruct (files w !! OUT_FOLDER); [reflexivity |].
    cbn [files]. now apply tree_insert_outside. }
  assert (forall p, p <> OUT_FOLDER -> files (with_out_folder w) !! p = files w !! p) as Hk1.
  { intros p Hp. unfold with_out_folder. destruct (files w !! OUT_FOLDER); [reflexivity |].
    cbn [files]. apply lookup_insert_ne. congruence. }
  rewrite clear_video_dir_run, Ht1. cbn [snd].
  destruct (files w !! TMP_FOLDER) as [[|] |] eqn:Ht; [contradiction | |].
  - eexists. split.
    + apply os_mkdir_new; cbn [files].
      * rewrite lookup_rmtree. case_bool_decide as H; [destruct H; congruence | reflexivity].
      * unfold parent. change (dirname TMP_FOLDER) with OUT_FOLDER. cbn [decide].
        rewrite lookup_rmtree. case_bool_decide as H; [exact Ho1 |].
        exfalso. apply H. split; [discriminate | reflexivity].
    + cbn [files]. split; [| split; [apply lookup_insert_eq | split]].
      * rewrite lookup_insert_ne by discriminate. rewrite lookup_rmtree.
        case_bool_decide as H; [exact Ho1 |].
        exfalso. apply H. split; [discriminate | reflexivity].
      * intros _. rewrite tree_insert_outside by reflexivity. apply tree_rmtree.
      * intros p Hpo Hpt Hb. rewrite lookup_insert_ne by congruence.
        rewrite lookup_rmtree. case_bool_decide as H; [now apply Hk1 |].
        exfalso. apply H. now split.
  - eexists. split.
    + apply os_mkdir_new; [now rewrite Ht1 |].
      unfold parent. change (dirname TMP_FOLDER) with OUT_FOLDER. exact Ho1.
    + cbn [files]. split; [| split; [apply lookup_insert_eq | split]].
      * now rewrite lookup_insert_ne by discriminate.
      * intros Hc. rewrite tree_insert_outside by reflexivity. rewrite Htr1. now apply Hc.
      * intros p Hpo Hpt Hb. rewrite lookup_insert_ne by congruence. now apply Hk1.
Qed.

(** ** Frames *)

Lemma indexable_index2 (a : ndarray) :
  indexable a = true -> exists x y, index2 a 0 0 = Ok x /\ index2 a 1 0 = Ok y.
Proof.
  destruct a as [v | [| [| x r0] [| [| y r1] rows]]]; try discriminate.
  intros _. now exists x, y.
Qed.

Lemma two_rows_indexable (a : ndarray) : two_rows a = true -> indexable a = true.
Proof.
  destruct a as [v | [| [| x r0] [| [| y r1] [| r2 rows]]]]; try discriminate.
  reflexivity.
Qed.

Lemma move_display_window_to_two_rows (sf : SimulationSurface.t) (P : ndarray) :
  two_rows P = true -> ~ (scaling sf == 0)%Q ->
  exists o, move_display_window_to sf P = Ok (set_origin o sf) /\ indexable o = true.
Proof.
  intros HP HS. destruct (scaling_nonzero sf HS) as [E1 E2].
  unfold move_display_window_to, py_div. rewrite E1, E2.
  destruct P as [v | [| [| x r0] [| [| y r1] [| r2 rows]]]]; try discriminate.
  eexists. split; reflexivity.
Qed.

Lemma draw_circle_at (sf : SimulationSurface.t) (a : ndarray) (radius : Z) (wd : Z) :
  indexable (origin sf) = true -> indexable a = true ->
  exists sf',
    (x ← lift (index2 a 0 0);
     y ← lift (index2 a 1 0);
     position ← lift (pos2pix sf x y);
     modify (draw (DrawCircle GREY position radius wd))) sf = (Ok tt, sf') /\
    same_frame sf sf'.
Proof.
  intros Ho Ha.
  destruct (indexable_index2 _ Ho) as (ox & oy & Hox & Hoy).
  destruct (indexable_index2 _ Ha) as (x & y & Hx & Hy).
  unfold mbind, M_bind, lift, modify. rewrite Hx, Hy.
  rewrite (pos2pix_indexed sf x y ox oy Hox Hoy).
  eexists. split; [reflexivity |]. repeat split.
Qed.

Lemma same_frame_trans (a b c : SimulationSurface.t) :
  same_frame a b -> same_frame b c -> same_frame a c.
Proof. unfold same_frame. intuition congruence. Qed.

Lemma draw_obstacles (obs : list Obstacle) (sf : SimulationSurface.t) :
  indexable (origin sf) = true ->
  forallb (fun o => indexable (ob_position o)) obs = true ->
  exists sf',
    for_each obs (fun obstacle =>
      surface ← get;
      x ← lift (index2 (ob_position obstacle) 0 0);
      y ← lift (index2 (ob_position obstacle) 1 0);
      position ← lift (pos2pix surface x y);
      modify (draw (DrawCircle GREY position (pix surface (ob_radius obstacle)) 0))) sf
    = (Ok tt, sf') /\
    same_frame sf sf'.
Proof.
  revert sf. induction obs as [| o obs IH]; intros sf Ho Hobs.
  - exists sf. split; [reflexivity | repeat split].
  - cbn [forallb] in Hobs. apply andb_prop in Hobs as [Hob Hobs].
    cbn [for_each].
    destruct (draw_circle_at sf (ob_position o) (pix sf (ob_radius o)) 0 Ho Hob)
      as (sf1 & E1 & F1).
    erewrite bind_ok; [| rewrite (bind_ok _ _ sf sf sf) by reflexivity; exact E1].
    destruct (IH sf1) as (sf2 & E2 & F2).
    + destruct F1 as (_ & _ & <- & _). exact Ho.
    + exact Hobs.
    + exists sf2. split; [exact E2 | eapply same_frame_trans; eassumption].
Qed.

Lemma scene_display_ok (sc : Scene) (sf : SimulationSurface.t) :
  indexable (origin sf) = true ->
  forallb (fun o => indexable (ob_position o)) (obstacles sc) = true ->
  exists sf', Scene2dGraphics.display sc sf = (Ok tt, sf') /\ same_frame sf sf'.
Proof.
  intros Ho Hobs. unfold Scene2dGraphics.display.
  rewrite (bind_ok _ _ sf sf sf) by reflexivity.
  erewrite bind_ok by reflexivity.
  destruct (draw_obstacles (obstacles sc)
              (draw (DrawRect WHITE [0%Z; 0%Z; width sf; height sf] 0) sf) Ho Hobs)
    as (sf' & E & F).
  exists sf'. split; [exact E |].
  eapply same_frame_trans; [| exact F]. repeat split.
Qed.

Lemma display_dynamics_ok (d : Dynamics) (sf : SimulationSurface.t) :
  indexable (origin sf) = true -> two_rows (position d) = true ->
  exists sf',
    Scene2dGraphics.display_dynamics (Some d) sf = (Ok tt, sf') /\ same_frame sf sf'.
Proof.
  intros Ho Hd. unfold Scene2dGraphics.display_dynamics.
  rewrite (bind_ok _ _ sf sf sf) by reflexivity.
  apply draw_circle_at; [exact Ho | now apply two_rows_indexable].
Qed.

Lemma on_surface_run {A} (m : M SimulationSurface.t A) (st : State) (r : res A)
    (sf' : SimulationSurface.t) :
  m (sim_surface (self st)) = (r, sf') ->
  on_surface m st
  = (r, {| self := EnvViewer.mk (record_video (self st)) (screen (self st)) sf'
                     (frame (self st)) (video_name (self st));
           world := world st |}).
Proof. intros H. unfold on_surface, zoom. now rewrite H. Qed.

Lemma frame_paths_succ (name : string) (k : nat) :
  frame_paths name (S k)
  = (frame_paths name k ++ [frame_path name (Z.of_nat (S k))])%list.
Proof. unfold frame_paths. now rewrite seq_S, map_app. Qed.

Lemma elem_of_frame_paths (name p : string) (n : nat) :
  p ∈ frame_paths name n <->
  exists i : Z, (1 <= i <= Z.of_nat n)%Z /\ p = frame_path name i.
Proof.
  unfold frame_paths. rewrite list_elem_of_In, in_map_iff. split.
  - intros (i & <- & Hi). apply in_seq in Hi. exists (Z.of_nat i). split; [lia | reflexivity].
  - intros (i & Hi & ->). exists (Z.to_nat i). split.
    + now rewrite Z2Nat.id by lia.
    + apply in_seq. lia.
Qed.

Lemma parent_frame_path (name : string) (i : Z) (fs : gmap string kind) :
  slashless name = true -> parent (frame_path name i) fs = fs !! TMP_FOLDER.
Proof.
  intros Hname. unfold parent. rewrite frame_path_dirname by exact Hname.
  destruct (decide (TMP_FOLDER = "")) as [H | _]; [discriminate | reflexivity].
Qed.

Lemma next_frame_is_new (name : string) (k : nat) (fs : gmap string kind) :
  tree TMP_FOLDER fs = list_to_set (frame_paths name k) ->
  fs !! frame_path name (Z.of_nat k + 1) = None.
Proof.
  intros Htree. destruct (fs !! frame_path name (Z.of_nat k + 1)) as [x |] eqn:E;
    [| reflexivity].
  assert (frame_path name (Z.of_nat k + 1) ∈ tree TMP_FOLDER fs) as Hin.
  { apply elem_of_tree. split; [apply frame_path_below | now rewrite E]. }
  rewrite Htree, elem_of_list_to_set, elem_of_frame_paths in Hin.
  destruct Hin as (i & Hi & Heq). apply frame_path_inj in Heq; lia.
Qed.

Lemma display_recording (env : Env) (name : string) (k : nat) (st : State) :
  drawable env = true -> slashless name = true ->
  recording name k st ->
  exists st',
    display env st = (Ok tt, st') /\
    recording name (S k) st' /\
    files (world st') = <[frame_path name (Z.of_nat k + 1) := File]> (files (world st)).
Proof.
  intros Henv Hname (Hrv & Hfr & Hvn & HS & Htmp & Htree & Hkind).
  destruct st as [[rv scr sf fr vn] w]. cbn in Hrv, Hfr, Hvn, HS, Htmp, Htree, Hkind. subst.
  unfold drawable in Henv. destruct (dynamics env) as [d |] eqn:Hd; [| discriminate].
  apply andb_prop in Henv as [Hpos Hobs].
  destruct (move_display_window_to_two_rows sf (position d) Hpos HS) as (o & Em & Ho).
  destruct (scene_display_ok (scene env) (set_origin o sf) Ho Hobs) as (sf1 & E1 & F1).
  assert (indexable (origin sf1) = true) as Ho1.
  { destruct F1 as (_ & _ & <- & _). exact Ho. }
  destruct (display_dynamics_ok d sf1 Ho1 Hpos) as (sf2 & E2 & F2).
  pose proof (next_frame_is_new name k (files w) Htree) as Hnew.
  unfold display, window_position. rewrite Hd.
  erewrite bind_ok.
  2:{ apply on_surface_run. cbn [self sim_surface].
      rewrite (bind_ok _ _ sf sf sf) by reflexivity.
      unfold lift. erewrite bind_ok by (rewrite Em; reflexivity). reflexivity. }
  erewrite bind_ok by (apply on_surface_run; exact E1).
  erewrite bind_ok by (apply on_surface_run; exact E2).
  cbn [self world record_video screen sim_surface frame video_name].
  erewrite bind_ok by reflexivity.
  erewrite bind_ok by reflexivity.
  erewrite bind_ok by reflexivity.
  erewrite bind_ok by reflexivity.
  erewrite bind_ok by reflexivity.
  cbn [self world record_video screen sim_surface frame video_name].
  erewrite bind_ok by reflexivity.
  erewrite bind_ok by reflexivity.
  erewrite bind_ok by reflexivity.
  cbn [self world record_video screen sim_surface frame video_name files log].
  fold (frame_path name (Z.of_nat k + 1)).
  unfold in_world, zoom. cbn [self world].
  rewrite pygame_image_save_ok.
  2:{ cbn [files]. now rewrite parent_frame_path. }
  2:{ cbn [files]. now rewrite Hnew. }
  eexists. split; [reflexivity |]. split; [| reflexivity].
  replace (Z.of_nat k + 1)%Z with (Z.of_nat (S k)) in * by lia.
  unfold recording. cbn [self world record_video sim_surface frame video_name files].
  destruct F1 as (_ & _ & _ & FS1 & _), F2 as (_ & _ & _ & FS2 & _).
  cbn [set_origin scaling] in FS1.
  repeat split.
  - rewrite <- FS2, <- FS1. exact HS.
  - rewrite lookup_insert_ne; [exact Htmp |]. intros Heq. congruence.
  - rewrite tree_insert_below by apply frame_path_below.
    rewrite Htree, frame_paths_succ, list_to_set_app_L. cbn [list_to_set].
    apply set_eq. intros q.
    rewrite !elem_of_union, elem_of_singleton, elem_of_empty. tauto.
  - intros p Hp. rewrite frame_paths_succ in Hp.
    apply elem_of_app in Hp as [Hp | Hp].
    + destruct (decide (frame_path name (Z.of_nat (S k)) = p)) as [-> | Hne].
      * apply lookup_insert_eq.
      * rewrite lookup_insert_ne by exact Hne. now apply Hkind.
    + apply list_elem_of_singleton in Hp as ->. apply lookup_insert_eq.
Qed.

Lemma displays_recording (envs : list Env) (name : string) (k : nat) (st : State) :
  forallb drawable envs = true -> slashless name = true ->
  recording name k st ->
  exists st',
    displays envs st = (Ok tt, st') /\ recording name (k + length envs) st'.
Proof.
  intros Henvs Hname. revert k st.
  induction envs as [| env envs IH]; intros k st Hrec.
  - exists st. split; [reflexivity |]. now rewrite Nat.add_0_r.
  - cbn [forallb] in Henvs. apply andb_prop in Henvs as [Henv Henvs].
    destruct (display_recording env name k st Henv Hname Hrec) as (st1 & E1 & Hrec1 & _).
    destruct (IH Henvs (S k) st1 Hrec1) as (st2 & E2 & Hrec2).
    exists st2. split.
    + unfold displays. cbn [for_each]. now rewrite (bind_ok _ _ _ _ _ E1).
    + cbn [length]. now rewrite Nat.add_succ_r.
Qed.

Lemma init_recording (now : string) (w : World) :
  files w !! OUT_FOLDER <> Some File ->
  files w !! TMP_FOLDER <> Some File ->
  (files w !! TMP_FOLDER = None -> tree TMP_FOLDER (files w) = ∅) ->
  exists w',
    __init__ true now w = (Ok (new_viewer true now), w') /\
    recording ("obstacle_" ++ now) 0 {| self := new_viewer true now; world := w' |}.
Proof.
  intros Hout Htmp Hc. unfold __init__.
  do 3 (erewrite bind_ok by reflexivity).
  destruct (make_video_dir_spec
              {| files := files w;
                 log := ((log w ++ [PygameInit]) ++ [SetCaption "Obstacle-env"])
                        ++ [SetMode SCREEN_WIDTH SCREEN_HEIGHT] |} Hout Htmp)
    as (w' & E & _ & Htmp' & Htree & _).
  exists w'. split.
  - now rewrite (bind_ok _ _ _ _ _ E).
  - repeat split; try assumption; try discriminate; [now apply Htree |].
    intros p Hp. cbn in Hp. now apply elem_of_nil in Hp.
Qed.

Lemma NoDup_frame_paths (name : string) (n : nat) : NoDup (frame_paths name n).
Proof.
  unfold frame_paths. apply NoDup_fmap_2_strong; [| apply NoDup_seq].
  intros i j _ _ H. apply frame_path_inj in H; lia.
Qed.

Lemma size_frame_paths (name : string) (n : nat) :
  size (list_to_set (frame_paths name n) : gset string) = n.
Proof.
  rewrite size_list_to_set by apply NoDup_frame_paths.
  unfold frame_paths. now rewrite length_map, length_seq.
Qed.

(** C8: with capture enabled, every display cycle that draws increments the
    frame counter by exactly 1 and then saves the frame under the new
    number; so after N cycles the counter is N and the temporary directory
    holds exactly N frame images, those of the indices 1 to N, each named
    by the session name and the index zero-padded to four digits (which is
    exactly four characters up to frame 9999); index 0000 is never
    produced.  (The constructor is given a file system on which neither the
    output directory nor the temporary directory is a regular file.) *)
Theorem frames_after_cycles (now : string) (w : World) (envs : list Env) :
  slashless now = true ->
  files w !! OUT_FOLDER <> Some File ->
  files w !! TMP_FOLDER <> Some File ->
  (files w !! TMP_FOLDER = None -> tree TMP_FOLDER (files w) = ∅) ->
  forallb drawable envs = true ->
  (forall env k st,
     drawable env = true -> recording ("obstacle_" ++ now) k st ->
     exists st',
       display env st = (Ok tt, st') /\
       frame (self st') = Some (Z.of_nat k + 1)%Z /\
       files (world st')
       = <[frame_path ("obstacle_" ++ now) (Z.of_nat k + 1) := File]> (files (world st))) /\
  exists w0 st,
    __init__ true now w = (Ok (new_viewer true now), w0) /\
    displays envs {| self := new_viewer true now; world := w0 |} = (Ok tt, st) /\
    frame (self st) = Some (Z.of_nat (length envs)) /\
    tree TMP_FOLDER (files (world st))
    = list_to_set (frame_paths ("obstacle_" ++ now) (length envs)) /\
    size (tree TMP_FOLDER (files (world st))) = length envs /\
    (forall p, (p ∈ tree TMP_FOLDER (files (world st))) <->
               exists i : Z, (1 <= i <= Z.of_nat (length envs))%Z /\
                             p = frame_path ("obstacle_" ++ now) i) /\
    (forall i : Z, (1 <= i <= Z.of_nat (length envs))%Z ->
                   files (world st) !! frame_path ("obstacle_" ++ now) i = Some File) /\
    files (world st) !! frame_path ("obstacle_" ++ now) 0 = None /\
    (forall i : Z, (1 <= i <= Z.of_nat (length envs))%Z -> (i <= 9999)%Z ->
                   String.length (format_04d i) = 4%nat).
Proof.
  intros Hnow Hout Htmp Hc Henvs.
  assert (slashless ("obstacle_" ++ now) = true) as Hname.
  { rewrite slashless_app, Hnow. reflexivity. }
  split.
  - intros env k st Henv Hrec.
    destruct (display_recording env _ k st Henv Hname Hrec) as (st' & E & Hrec' & Hf).
    exists st'. split; [exact E |]. split; [| exact Hf].
    destruct Hrec' as (_ & -> & _). f_equal. lia.
  - destruct (init_recording now w Hout Htmp Hc) as (w0 & E0 & Hrec0).
    destruct (displays_recording envs _ 0 _ Henvs Hname Hrec0) as (st & E & Hrec).
    cbn [Nat.add] in Hrec. destruct Hrec as (_ & Hfr & _ & _ & _ & Htree & Hkind).
    assert (forall p, (p ∈ tree TMP_FOLDER (files (world st))) <->
                      exists i : Z, (1 <= i <= Z.of_nat (length envs))%Z /\
                                    p = frame_path ("obstacle_" ++ now) i) as Hmem.
    { intros p. rewrite Htree, elem_of_list_to_set. apply elem_of_frame_paths. }
    exists w0, st. repeat split; try assumption.
    + rewrite Htree. apply size_frame_paths.
    + apply Hmem.
    + apply Hmem.
    + intros i Hi. apply Hkind. apply elem_of_frame_paths. now exists i.
    + destruct (files (world st) !! frame_path ("obstacle_" ++ now) 0) as [x |] eqn:E0';
        [| reflexivity].
      assert (frame_path ("obstacle_" ++ now) 0 ∈ tree TMP_FOLDER (files (world st))) as Ht.
      { apply elem_of_tree. split; [apply frame_path_below | now rewrite E0']. }
      apply Hmem in Ht as (i & Hi & Heq). apply frame_path_inj in Heq; lia.
    + intros i Hi Hmax. apply length_format_04d. lia.
Qed.

Lemma frames_after_cycles_witness :
  exists st,
    displays [example_env; example_env]
      {| self := new_viewer true "2018-03-01-12:00:00";
         world := snd (__init__ true "2018-03-01-12:00:00" empty_world) |}
    = (Ok tt, st) /\
    frame (self st) = Some 2%Z /\
    size (tree TMP_FOLDER (files (world st))) = 2%nat.
Proof.
  destruct (frames_after_cycles "2018-03-01-12:00:00" empty_world
              [example_env; example_env]) as (_ & w0 & st & E0 & E & Hf & _ & Hs & _).
  - reflexivity.
  - discriminate.
  - discriminate.
  - intros _. apply set_eq. intros q. rewrite elem_of_tree. cbn [files empty_world].
    rewrite lookup_empty, elem_of_empty. split; [intros (_ & H); now destruct H | tauto].
  - reflexivity.
  - exists st. rewrite E0. cbn [snd]. repeat split; assumption.
Defined.

(** ** Shutdown *)

Lemma frequency_nonzero (f : Z) :
  f <> 0%Z -> Qeq_bool (inject_Z (VIDEO_SPEED * f)) 0 = false.
Proof.
  intros H. apply not_true_is_false. intros E. apply Qeq_bool_iff in E.
  unfold Qeq in E. cbn in E. unfold VIDEO_SPEED in E. lia.
Qed.

Lemma close_run (shell : string -> gmap string kind -> gmap string kind * Z) (env : Env)
    (st : State) (name : string) :
  record_video (self st) = true ->
  video_name (self st) = Some name ->
  SIMULATION_FREQUENCY env <> 0%Z ->
  close shell env st
  = (Ok tt,
     {| self := self st;
        world :=
          snd (clear_video_dir
                 {| files :=
                      fst (shell
                             (convert_command name
                                (np_round (100 / inject_Z (VIDEO_SPEED * SIMULATION_FREQUENCY env))))
                             (fst (shell
                                     (ffmpeg_command name
                                        (VIDEO_SPEED * SIMULATION_FREQUENCY env))
                                     (files (world st)))));
                    log :=
                      (log (world st)
                       ++ [PygameQuit;
                           System (ffmpeg_command name
                                     (VIDEO_SPEED * SIMULATION_FREQUENCY env));
                           System (convert_command name
                                     (np_round (100 / inject_Z (VIDEO_SPEED * SIMULATION_FREQUENCY env))))])%list
                 |}) |}).
Proof.
  intros Hrv Hvn Hf.
  destruct st as [[rv scr sf fr vn] [fs lg]]. cbn in Hrv, Hvn. subst rv vn.
  cbn [self world files log].
  unfold close.
  do 2 (erewrite bind_ok by reflexivity).
  cbn [self record_video video_name attr].
  do 2 (erewrite bind_ok by reflexivity).
  unfold py_div. rewrite frequency_nonzero by exact Hf.
  erewrite bind_ok by reflexivity.
  erewrite bind_ok by reflexivity.
  unfold in_world, zoom. cbn [self world files log fst snd].
  rewrite <- !app_assoc. cbn [app].
  destruct (clear_video_dir _) as [r w'] eqn:E.
  rewrite clear_video_dir_run in E. injection E as <- <-. reflexivity.
Qed.



(** C9, the case the claim leaves out: with the simulation frequency 0 the
    delay of the second encoder divides by zero.  [close] raises once the
    first encoder has run; the second is not started and the frames stay
    in the temporary directory. *)
Lemma close_keeps_frames_at_zero_frequency :
  fst (close failing_shell (empty_env 0) recorded_state) = Raise ZeroDivisionError /\
  log (world (snd (close failing_shell (empty_env 0) recorded_state)))
  = [PygameQuit;
     System ("ffmpeg -r 0 -i out/tmp/obstacle_2018-03-01-12:00:00_%04d.bmp"
             ++ " -vcodec libx264 -crf 25 out/obstacle_2018-03-01-12:00:00.avi")] /\
  files (world (snd (close failing_shell (empty_env 0) recorded_state))) !! "out/tmp"
  = Some Dir /\
  files (world (snd (close failing_shell (empty_env 0) recorded_state)))
    !! "out/tmp/obstacle_2018-03-01-12:00:00_0001.bmp"
  = Some File.
Proof. vm_compute. repeat split. Qed.

(** * Further properties *)

(** ** The temporary directory *)

Lemma with_out_folder_out (w : World) :
  files w !! OUT_FOLDER <> Some File ->
  files (with_out_folder w) !! OUT_FOLDER = Some Dir.
Proof.
  intros Hout. unfold with_out_folder.
  destruct (files w !! OUT_FOLDER) as [[|] |] eqn:Ho;
    [contradiction | exact Ho | cbn [files]; apply lookup_insert_eq].
Qed.

Lemma with_out_folder_other (w : World) (p : string) :
  p <> OUT_FOLDER -> files (with_out_folder w) !! p = files w !! p.
Proof.
  intros Hp. unfold with_out_folder. destruct (files w !! OUT_FOLDER); [reflexivity |].
  cbn [files]. apply lookup_insert_ne. congruence.
Qed.

(** X2: what [make_video_dir] does depends on what bears the names of the
    two directories.  If the output directory is a regular file it raises
    [NotADirectoryError].  Otherwise, if the temporary directory is a
    regular file, [rmtree] leaves it there without an error and the
    [os.mkdir] that follows raises [FileExistsError].  In every other case
    it returns: both directories exist, a temporary directory that was
    there has lost everything below it, and every entry outside it is kept
    as it was. *)
Theorem make_video_dir_outcomes (w : World) :
  (files w !! OUT_FOLDER = Some File ->
   fst (make_video_dir w) = Raise NotADirectoryError) /\
  (files w !! OUT_FOLDER <> Some File ->
   files w !! TMP_FOLDER = Some File ->
   fst (make_video_dir w) = Raise FileExistsError /\
   files (snd (make_video_dir w)) !! TMP_FOLDER = Some File) /\
  (files w !! OUT_FOLDER <> Some File ->
   files w !! TMP_FOLDER <> Some File ->
   exists w',
     make_video_dir w = (Ok tt, w') /\
     files w' !! OUT_FOLDER = Some Dir /\
     files w' !! TMP_FOLDER = Some Dir /\
     (files w !! TMP_FOLDER = Some Dir \/ tree TMP_FOLDER (files w) = ∅ ->
      tree TMP_FOLDER (files w') = ∅) /\
     (forall p, p <> OUT_FOLDER -> p <> TMP_FOLDER -> below TMP_FOLDER p = false ->
                files w' !! p = files w !! p)).
Proof.
  split; [| split].
  - intros Hout. rewrite make_video_dir_run, clear_video_dir_run.
    assert (with_out_folder w = w) as -> by (unfold with_out_folder; now rewrite Hout).
    unfold os_mkdir, mbind, M_bind, get, parent.
    change (dirname TMP_FOLDER) with OUT_FOLDER.
    destruct (files w !! TMP_FOLDER) as [[|] |]; cbn [snd files decide].
    + destruct (decide (OUT_FOLDER = "")); [discriminate |]. now rewrite Hout.
    + destruct (decide (OUT_FOLDER = "")); [discriminate |].
      rewrite lookup_rmtree. case_bool_decide as H; [now rewrite Hout |].
      exfalso. apply H. split; [discriminate | reflexivity].
    + destruct (decide (OUT_FOLDER = "")); [discriminate |]. now rewrite Hout.
  - intros Hout Htmp. rewrite make_video_dir_run, clear_video_dir_run.
    rewrite with_out_folder_other by discriminate. rewrite Htmp. cbn [snd].
    unfold os_mkdir, mbind, M_bind, get, parent.
    change (dirname TMP_FOLDER) with OUT_FOLDER. cbn [files].
    destruct (decide (OUT_FOLDER = "")); [discriminate |].
    rewrite with_out_folder_out by exact Hout.
    rewrite with_out_folder_other by discriminate. rewrite Htmp.
    split; [reflexivity |]. cbn [lift snd files].
    rewrite with_out_folder_other by discriminate. exact Htmp.
  - intros Hout Htmp.
    destruct (make_video_dir_spec w Hout Htmp) as (w' & E & Ho & Ht & Htree & Hkeep).
    exists w'. repeat split; try assumption.
    intros [Hd | He]; apply Htree; [congruence | intros _; exact He].
Qed.

Lemma make_video_dir_outcomes_witness :
  fst (make_video_dir {| files := {[ "out" := File ]}; log := [] |})
  = Raise NotADirectoryError /\
  fst (make_video_dir {| files := {[ "out" := Dir; "out/tmp" := File ]}; log := [] |})
  = Raise FileExistsError /\
  exists w',
    make_video_dir (world recorded_state) = (Ok tt, w') /\
    tree TMP_FOLDER (files w') = ∅.
Proof.
  split; [| split].
  - apply (proj1 (make_video_dir_outcomes {| files := {[ "out" := File ]}; log := [] |})).
    vm_compute. reflexivity.
  - apply (proj1 (proj2 (make_video_dir_outcomes
                           {| files := {[ "out" := Dir; "out/tmp" := File ]}; log := [] |}))).
    + vm_compute. discriminate.
    + vm_compute. reflexivity.
  - destruct (proj2 (proj2 (make_video_dir_outcomes (world recorded_state))))
      as (w' & E & _ & _ & Ht & _).
    + vm_compute. discriminate.
    + vm_compute. discriminate.
    + exists w'. split; [exact E |]. apply Ht. left. vm_compute. reflexivity.
Defined.

(** ** The draw pass, call by call *)

Lemma index2_corner (a : ndarray) :
  indexable a = true ->
  index2 a 0 0 = Ok (fst (corner a)) /\ index2 a 1 0 = Ok (snd (corner a)).
Proof.
  destruct a as [v | [| [| x r0] [| [| y r1] rows]]]; try discriminate.
  intros _. split; reflexivity.
Qed.

Lemma index2_not_indexable (a : ndarray) :
  indexable a = false ->
  index2 a 0 0 = Raise IndexError \/
  exists x, index2 a 0 0 = Ok x /\ index2 a 1 0 = Raise IndexError.
Proof.
  destruct a as [v | [| [| x r0] [| [| y r1] rows]]]; try discriminate; intros _;
    solve [left; reflexivity | right; eexists; split; reflexivity].
Qed.

Lemma draws_draws (l1 l2 : list draw_call) (sf : SimulationSurface.t) :
  draws l2 (draws l1 sf) = draws (l1 ++ l2) sf.
Proof. unfold draws. cbn. now rewrite app_assoc. Qed.

Lemma draws_nil (sf : SimulationSurface.t) : draws [] sf = sf.
Proof. destruct sf. unfold draws. cbn. now rewrite app_nil_r. Qed.

Lemma circle_step (sf : SimulationSurface.t) (a : ndarray) (radius wd : Z) :
  indexable (origin sf) = true -> indexable a = true ->
  (x ← lift (index2 a 0 0);
   y ← lift (index2 a 1 0);
   position ← lift (pos2pix sf x y);
   modify (draw (DrawCircle Scene2dGraphics.GREY position radius wd))) sf
  = (Ok tt, draws [DrawCircle Scene2dGraphics.GREY (pixel sf a) radius wd] sf).
Proof.
  intros Ho Ha.
  destruct (index2_corner _ Ho) as (Hox & Hoy).
  destruct (index2_corner _ Ha) as (Hx & Hy).
  unfold mbind, M_bind, lift, modify. rewrite Hx, Hy.
  rewrite (pos2pix_indexed sf _ _ _ _ Hox Hoy). reflexivity.
Qed.

Lemma circle_step_fail (sf : SimulationSurface.t) (a : ndarray) (radius wd : Z) :
  indexable (origin sf) = false \/ indexable a = false ->
  (x ← lift (index2 a 0 0);
   y ← lift (index2 a 1 0);
   position ← lift (pos2pix sf x y);
   modify (draw (DrawCircle Scene2dGraphics.GREY position radius wd))) sf
  = (Raise IndexError, sf).
Proof.
  intros H. unfold mbind, M_bind, lift, modify.
  destruct (indexable a) eqn:Ha.
  - destruct H as [Ho | ?]; [| discriminate].
    destruct (index2_corner _ Ha) as (-> & ->).
    unfold pos2pix, mbind, res_bind.
    destruct (index2_not_indexable _ Ho) as [-> | (ox & -> & ->)]; reflexivity.
  - destruct (index2_not_indexable _ Ha) as [-> | (x & -> & ->)]; reflexivity.
Qed.

Lemma obstacles_loop (obs : list Obstacle) (sf : SimulationSurface.t) :
  indexable (origin sf) = true ->
  forallb (fun o => indexable (ob_position o)) obs = true ->
  for_each obs (fun obstacle =>
    surface ← get;
    x ← lift (index2 (ob_position obstacle) 0 0);
    y ← lift (index2 (ob_position obstacle) 1 0);
    position ← lift (pos2pix surface x y);
    modify (draw (DrawCircle Scene2dGraphics.GREY position
                    (pix surface (ob_radius obstacle)) 0))) sf
  = (Ok tt, draws (map (obstacle_circle sf) obs) sf).
Proof.
  revert sf. induction obs as [| o obs IH]; intros sf Ho Hobs.
  - cbn. now rewrite draws_nil.
  - cbn [forallb] in Hobs. apply andb_prop in Hobs as [Hob Hobs].
    cbn [for_each].
    erewrite bind_ok.
    2:{ rewrite (bind_ok _ _ sf sf sf) by reflexivity.
        apply circle_step; assumption. }
    rewrite IH by assumption. now rewrite draws_draws.
Qed.

Lemma obstacles_loop_fail (good rest : list Obstacle) (bad : Obstacle)
    (sf : SimulationSurface.t) :
  indexable (origin sf) = true ->
  forallb (fun o => indexable (ob_position o)) good = true ->
  indexable (ob_position bad) = false ->
  for_each (good ++ bad :: rest)%list (fun obstacle =>
    surface ← get;
    x ← lift (index2 (ob_position obstacle) 0 0);
    y ← lift (index2 (ob_position obstacle) 1 0);
    position ← lift (pos2pix surface x y);
    modify (draw (DrawCircle Scene2dGraphics.GREY position
                    (pix surface (ob_radius obstacle)) 0))) sf
  = (Raise IndexError, draws (map (obstacle_circle sf) good) sf).
Proof.
  revert sf. induction good as [| o good IH]; intros sf Ho Hgood Hbad.
  - cbn [app for_each map]. rewrite draws_nil.
    erewrite bind_raise; [reflexivity |].
    rewrite (bind_ok _ _ sf sf sf) by reflexivity.
    apply circle_step_fail. now right.
  - cbn [forallb] in Hgood. apply andb_prop in Hgood as [Hob Hgood].
    cbn [app for_each].
    erewrite bind_ok.
    2:{ rewrite (bind_ok _ _ sf sf sf) by reflexivity.
        apply circle_step; assumption. }
    rewrite IH by assumption. now rewrite draws_draws.
Qed.

Lemma scene_display_run (sc : Scene) (sf : SimulationSurface.t) :
  indexable (origin sf) = true ->
  forallb (fun o => indexable (ob_position o)) (obstacles sc) = true ->
  Scene2dGraphics.display sc sf
  = (Ok tt, draws (background sf :: map (obstacle_circle sf) (obstacles sc)) sf).
Proof.
  intros Ho Hobs. unfold Scene2dGraphics.display.
  rewrite (bind_ok _ _ sf sf sf) by reflexivity.
  erewrite bind_ok by reflexivity.
  refine (eq_trans (obstacles_loop _ (draws [background sf] sf) Ho Hobs) _).
  now rewrite draws_draws.
Qed.

(** X3: on a surface whose origin is two-dimensional, the scene pass
    paints the white background over the whole surface and then one filled
    grey circle per obstacle, in the order of the scene, each at the pixel
    of its position with the radius [pix(radius)]; it changes nothing but
    the pixels.  With no obstacle it paints the background only, on any
    surface. *)
Theorem scene_display_paints (sc : Scene) (sf : SimulationSurface.t) :
  (indexable (origin sf) = true ->
   forallb (fun o => indexable (ob_position o)) (obstacles sc) = true ->
   Scene2dGraphics.display sc sf
   = (Ok tt, draws (background sf :: map (obstacle_circle sf) (obstacles sc)) sf)) /\
  (obstacles sc = [] ->
   Scene2dGraphics.display sc sf = (Ok tt, draws [background sf] sf)).
Proof.
  split; [apply scene_display_run |].
  intros Hnil. unfold Scene2dGraphics.display. rewrite Hnil. reflexivity.
Qed.

Lemma scene_display_paints_witness :
  Scene2dGraphics.display (scene example_env) surface_at_zero
  = (Ok tt,
     draws [DrawRect (255, 255, 255)%Z [0; 0; 400; 400]%Z 0;
            DrawCircle (100, 100, 100)%Z (75, 75)%Z 15 0] surface_at_zero).
Proof.
  rewrite (proj1 (scene_display_paints (scene example_env) surface_at_zero));
    reflexivity.
Defined.

(** X4: an obstacle whose position has no entries at [[0, 0]] and [[1, 0]]
    (a flat pair, say) stops the scene pass with [IndexError]; the
    background and the obstacles before it stay painted, those after it are
    not drawn.  On a surface whose origin is still flat, the first obstacle
    stops it. *)
Theorem scene_display_stops_at_malformed
    (good rest : list Obstacle) (bad : Obstacle) (sf : SimulationSurface.t) :
  (indexable (origin sf) = true ->
   forallb (fun o => indexable (ob_position o)) good = true ->
   indexable (ob_position bad) = false ->
   Scene2dGraphics.display {| obstacles := good ++ bad :: rest |} sf
   = (Raise IndexError, draws (background sf :: map (obstacle_circle sf) good) sf)) /\
  (indexable (origin sf) = false ->
   Scene2dGraphics.display {| obstacles := bad :: rest |} sf
   = (Raise IndexError, draws [background sf] sf)).
Proof.
  split.
  - intros Ho Hgood Hbad. unfold Scene2dGraphics.display. cbn [obstacles].
    rewrite (bind_ok _ _ sf sf sf) by reflexivity.
    erewrite bind_ok by reflexivity.
    refine (eq_trans (obstacles_loop_fail good rest bad (draws [background sf] sf)
                        Ho Hgood Hbad) _).
    now rewrite draws_draws.
  - intros Ho. unfold Scene2dGraphics.display. cbn [obstacles].
    rewrite (bind_ok _ _ sf sf sf) by reflexivity.
    erewrite bind_ok by reflexivity.
    cbn [for_each].
    erewrite bind_raise; [reflexivity |].
    erewrite bind_ok by reflexivity.
    refine (circle_step_fail (draws [background sf] sf) _ _ _ _). now left.
Qed.

Lemma scene_display_stops_at_malformed_witness :
  Scene2dGraphics.display
    {| obstacles := [{| ob_position := column 5 5; ob_radius := 1 |};
                     {| ob_position := Arr1 [7; 7]; ob_radius := 1 |};
                     {| ob_position := column 9 9; ob_radius := 1 |}] |}
    surface_at_zero
  = (Raise IndexError,
     draws [DrawRect (255, 255, 255)%Z [0; 0; 400; 400]%Z 0;
            DrawCircle (100, 100, 100)%Z (75, 75)%Z 15 0] surface_at_zero).
Proof.
  apply (proj1 (scene_display_stops_at_malformed
                  [{| ob_position := column 5 5; ob_radius := 1 |}]
                  [{| ob_position := column 9 9; ob_radius := 1 |}]
                  {| ob_position := Arr1 [7; 7]; ob_radius := 1 |} surface_at_zero));
    reflexivity.
Defined.

Lemma display_dynamics_run (d : Dynamics) (sf : SimulationSurface.t) :
  indexable (origin sf) = true -> indexable (position d) = true ->
  Scene2dGraphics.display_dynamics (Some d) sf = (Ok tt, draws [agent_circle sf d] sf).
Proof.
  intros Ho Hd. unfold Scene2dGraphics.display_dynamics.
  rewrite (bind_ok _ _ sf sf sf) by reflexivity.
  now apply circle_step.
Qed.

(** ** A display cycle, step by step *)

Lemma draw_pass_run {A} (env : Env) (st : State) (k : M State A) :
  drawable env = true ->
  ~ (scaling (sim_surface (self st)) == 0)%Q ->
  (on_surface (sf ← get;
               sf' ← lift (move_display_window_to sf (window_position env));
               modify (fun _ => sf'));;
   on_surface (Scene2dGraphics.display (scene env));;
   on_surface (Scene2dGraphics.display_dynamics (dynamics env));;
   k) st
  = k {| self := EnvViewer.mk (record_video (self st)) (screen (self st))
                   (frame_drawn env (sim_surface (self st)))
                   (frame (self st)) (video_name (self st));
         world := world st |}.
Proof.
  intros Henv HS. destruct st as [[rv scr sf fr vn] w]. cbn in HS.
  cbn [self world record_video screen sim_surface frame video_name].
  unfold drawable in Henv. destruct (dynamics env) as [d |] eqn:Hd; [| discriminate].
  apply andb_prop in Henv as [Hpos Hobs].
  destruct (move_display_window_to_two_rows sf (position d) Hpos HS) as (o & Em & Ho).
  unfold frame_drawn, recentred, window_position. rewrite Hd, Em.
  erewrite bind_ok.
  2:{ apply on_surface_run. cbn [self sim_surface].
      rewrite (bind_ok _ _ sf sf sf) by reflexivity.
      unfold lift. erewrite bind_ok by (rewrite Em; reflexivity). reflexivity. }
  erewrite bind_ok.
  2:{ apply on_surface_run. cbn [self sim_surface].
      apply scene_display_run; [exact Ho | exact Hobs]. }
  erewrite bind_ok.
  2:{ apply on_surface_run. cbn [self sim_surface].
      refine (display_dynamics_run d
                (draws (background (set_origin o sf)
                        :: map (obstacle_circle (set_origin o sf)) (obstacles (scene env)))
                   (set_origin o sf))
                Ho (two_rows_indexable _ Hpos)). }
  cbn [self world record_video screen sim_surface frame video_name].
  rewrite draws_draws. reflexivity.
Qed.

Lemma display_plain (env : Env) (st : State) :
  drawable env = true ->
  ~ (scaling (sim_surface (self st)) == 0)%Q ->
  record_video (self st) = false ->
  display env st
  = (Ok tt,
     {| self := EnvViewer.mk false
                  (canvas (frame_drawn env (sim_surface (self st))))
                  (frame_drawn env (sim_surface (self st)))
                  (frame (self st)) (video_name (self st));
        world := {| files := files (world st);
                    log := (log (world st)
                            ++ [Tick (SIMULATION_FREQUENCY env); Flip])%list |} |}).
Proof.
  intros Henv HS Hrv. unfold display.
  rewrite (draw_pass_run env st _ Henv HS).
  destruct st as [[rv scr sf fr vn] [fs lg]]. cbn in Hrv. subst rv.
  cbn [self world record_video screen sim_surface frame video_name files log].
  do 5 (erewrite bind_ok by reflexivity).
  cbn [self world record_video screen sim_surface frame video_name files log].
  unfold mret, M_ret. now rewrite <- app_assoc.
Qed.

Lemma display_saved (env : Env) (st : State) (f : Z) (name : string) :
  drawable env = true ->
  ~ (scaling (sim_surface (self st)) == 0)%Q ->
  record_video (self st) = true ->
  frame (self st) = Some f ->
  video_name (self st) = Some name ->
  slashless name = true ->
  files (world st) !! TMP_FOLDER = Some Dir ->
  files (world st) !! frame_path name (f + 1) <> Some Dir ->
  display env st
  = (Ok tt,
     {| self := EnvViewer.mk true
                  (canvas (frame_drawn env (sim_surface (self st))))
                  (frame_drawn env (sim_surface (self st)))
                  (Some (f + 1)%Z) (Some name);
        world := {| files := <[frame_path name (f + 1) := File]> (files (world st));
                    log := (log (world st)
                            ++ [Tick (SIMULATION_FREQUENCY env); Flip;
                                ImageSave (frame_path name (f + 1))
                                  (canvas (frame_drawn env (sim_surface (self st))))])%list
                 |} |}).
Proof.
  intros Henv HS Hrv Hfr Hvn Hname Htmp Hnew. unfold display.
  rewrite (draw_pass_run env st _ Henv HS).
  destruct st as [[rv scr sf fr vn] [fs lg]]. cbn in Hrv, Hfr, Hvn, Htmp, Hnew.
  subst rv fr vn.
  cbn [self world record_video screen sim_surface frame video_name files log].
  do 5 (erewrite bind_ok by reflexivity).
  cbn [self world record_video screen sim_surface frame video_name files log].
  do 3 (erewrite bind_ok by reflexivity).
  cbn [self world record_video screen sim_surface frame video_name files log].
  fold (frame_path name (f + 1)).
  unfold in_world, zoom. cbn [self world].
  rewrite pygame_image_save_ok;
    [| cbn [files]; now rewrite parent_frame_path | exact Hnew].
  cbn [files log]. now rewrite <- !app_assoc.
Qed.

Lemma display_surface (env : Env) (st : State) :
  drawable env = true ->
  ~ (scaling (sim_surface (self st)) == 0)%Q ->
  sim_surface (self (snd (display env st))) = frame_drawn env (sim_surface (self st)).
Proof.
  intros Henv HS. unfold display. rewrite (draw_pass_run env st _ Henv HS).
  destruct st as [[rv scr sf fr vn] [fs lg]].
  cbn [self world record_video screen sim_surface frame video_name files log].
  do 5 (erewrite bind_ok by reflexivity).
  cbn [self world record_video screen sim_surface frame video_name files log].
  destruct rv; [| reflexivity].
  destruct fr as [f |]; [| reflexivity].
  erewrite bind_ok by reflexivity. erewrite bind_ok by reflexivity.
  cbn [self world record_video screen sim_surface frame video_name files log].
  destruct vn as [name |]; [| reflexivity].
  erewrite bind_ok by reflexivity.
  unfold in_world, zoom, pygame_image_save, mbind, M_bind, get.
  cbn [self world files].
  match goal with
  | |- context [parent ?q fs] =>
      destruct (parent q fs) as [[|] |]; destruct (fs !! q) as [[|] |]; reflexivity
  end.
Qed.

Lemma corner_two_rows (P : ndarray) (dx dy : Q) (o : ndarray) :
  two_rows P = true -> sub_column P dx dy = Ok o ->
  corner o = (fst (corner P) - dx, snd (corner P) - dy)%Q.
Proof.
  destruct P as [v | [| [| x r0] [| [| y r1] [| r2 rows]]]]; try discriminate.
  intros _ [= <-]. reflexivity.
Qed.

(** X5: on an environment it can draw, [display] paints, over what the
    surface held, the white background, then one filled circle per
    obstacle in scene order, and the agent last: a grey outline, one pixel
    thick, of radius [pix(0.2)].  Every position is the one [pos2pix] gives
    on the surface as [move_display_window_to] has just recentred it on the
    agent, whatever the capture that follows does. *)
Theorem display_paints_agent_last (env : Env) (st : State) (d : Dynamics) :
  drawable env = true ->
  ~ (scaling (sim_surface (self st)) == 0)%Q ->
  dynamics env = Some d ->
  exists sf1 x y p,
    move_display_window_to (sim_surface (self st)) (position d) = Ok sf1 /\
    index2 (position d) 0 0 = Ok x /\
    index2 (position d) 1 0 = Ok y /\
    pos2pix sf1 x y = Ok p /\
    canvas (sim_surface (self (snd (display env st))))
    = (canvas (sim_surface (self st))
       ++ DrawRect (255, 255, 255)%Z [0; 0; width sf1; height sf1]%Z 0
       :: map (obstacle_circle sf1) (obstacles (scene env))
       ++ [DrawCircle (100, 100, 100)%Z p (pix sf1 0.2) 1])%list.
Proof.
  intros Henv HS Hd. rewrite (display_surface env st Henv HS).
  set (sf := sim_surface (self st)) in *.
  unfold drawable in Henv. rewrite Hd in Henv.
  apply andb_prop in Henv as [Hpos _].
  destruct (move_display_window_to_two_rows sf (position d) Hpos HS) as (o & Em & Ho).
  destruct (index2_corner _ (two_rows_indexable _ Hpos)) as (Hx & Hy).
  destruct (index2_corner _ Ho) as (Hox & Hoy).
  exists (set_origin o sf), (fst (corner (position d))), (snd (corner (position d))),
    (pixel (set_origin o sf) (position d)).
  split; [exact Em |]. split; [exact Hx |]. split; [exact Hy |]. split.
  - now rewrite (pos2pix_indexed (set_origin o sf) _ _ _ _ Hox Hoy).
  - unfold frame_drawn, recentred, window_position. rewrite Hd, Em. reflexivity.
Qed.

Lemma display_paints_agent_last_witness :
  exists sf1 x y p,
    move_display_window_to (sim_surface (self recorded_state)) (column 1 2) = Ok sf1 /\
    index2 (column 1 2) 0 0 = Ok x /\
    index2 (column 1 2) 1 0 = Ok y /\
    pos2pix sf1 x y = Ok p /\
    canvas (sim_surface (self (snd (display example_env recorded_state))))
    = (DrawRect (255, 255, 255)%Z [0; 0; width sf1; height sf1]%Z 0
       :: map (obstacle_circle sf1) (obstacles (scene example_env))
       ++ [DrawCircle (100, 100, 100)%Z p (pix sf1 0.2) 1])%list.
Proof.
  apply (display_paints_agent_last example_env recorded_state {| position := column 1 2 |}).
  - reflexivity.
  - discriminate.
  - reflexivity.
Defined.

(** X6: a display cycle on an environment it can draw copies the freshly
    drawn surface to the screen, then waits for the clock at the
    simulation frequency, then flips the display.  A viewer that does not
    record stops there: no file is written and it has no frame counter.  A
    recording viewer then saves exactly the screen it has just shown, after
    the flip, as a regular file under the incremented frame number (the
    temporary directory being a directory, and the frame's name not that
    of one). *)
Theorem display_presents_then_saves (env : Env) (st : State) :
  drawable env = true ->
  ~ (scaling (sim_surface (self st)) == 0)%Q ->
  (record_video (self st) = false ->
   exists st',
     display env st = (Ok tt, st') /\
     screen (self st') = canvas (sim_surface (self st')) /\
     log (world st')
     = (log (world st) ++ [Tick (SIMULATION_FREQUENCY env); Flip])%list /\
     files (world st') = files (world st) /\
     frame (self st') = frame (self st)) /\
  (forall f name,
     record_video (self st) = true ->
     frame (self st) = Some f ->
     video_name (self st) = Some name ->
     slashless name = true ->
     files (world st) !! TMP_FOLDER = Some Dir ->
     files (world st) !! frame_path name (f + 1) <> Some Dir ->
     exists st',
       display env st = (Ok tt, st') /\
       screen (self st') = canvas (sim_surface (self st')) /\
       log (world st')
       = (log (world st)
          ++ [Tick (SIMULATION_FREQUENCY env); Flip;
              ImageSave (frame_path name (f + 1)) (screen (self st'))])%list /\
       files (world st') = <[frame_path name (f + 1) := File]> (files (world st)) /\
       frame (self st') = Some (f + 1)%Z).
Proof.
  intros Henv HS. split.
  - intros Hrv. eexists. split; [apply display_plain; assumption |].
    repeat split.
  - intros f name Hrv Hfr Hvn Hname Htmp Hnew.
    eexists. split; [apply (display_saved env st f name); assumption |].
    repeat split.
Qed.

Lemma display_presents_then_saves_witness :
  exists st',
    display example_env recorded_state = (Ok tt, st') /\
    frame (self st') = Some 1%Z.
Proof.
  destruct (proj2 (display_presents_then_saves example_env recorded_state
                     eq_refl ltac:(discriminate))
              0%Z "obstacle_2018-03-01-12:00:00")
    as (st' & E & _ & _ & _ & Hf).
  - reflexivity.
  - reflexivity.
  - reflexivity.
  - reflexivity.
  - vm_compute. reflexivity.
  - vm_compute. discriminate.
  - exists st'. split; assumption.
Defined.

(** ** Sessions *)

Lemma move_display_window_to_ok (sf sf' : SimulationSurface.t) (P : ndarray) :
  move_display_window_to sf P = Ok sf' ->
  exists o, sf' = set_origin o sf.
Proof.
  unfold move_display_window_to, py_div.
  destruct (Qeq_bool (scaling sf) 0); [discriminate |].
  destruct (Qeq_bool (2 * scaling sf) 0); [discriminate |].
  cbn [mbind res_bind].
  destruct (sub_column P _ _) as [o | e]; [| discriminate].
  intros [= <-]. now exists o.
Qed.

Lemma frame_drawn_scaling (env : Env) (sf : SimulationSurface.t) :
  scaling (frame_drawn env sf) = scaling sf.
Proof.
  unfold frame_drawn, recentred.
  destruct (move_display_window_to sf (window_position env)) as [sf' | e] eqn:E;
    [| reflexivity].
  apply move_display_window_to_ok in E as (o & ->). reflexivity.
Qed.

Lemma displays_plain (envs : list Env) (st : State) :
  forallb drawable envs = true ->
  ~ (scaling (sim_surface (self st)) == 0)%Q ->
  record_video (self st) = false ->
  exists st',
    displays envs st = (Ok tt, st') /\
    record_video (self st') = false /\
    frame (self st') = frame (self st) /\
    video_name (self st') = video_name (self st) /\
    files (world st') = files (world st) /\
    log (world st')
    = (log (world st)
       ++ flat_map (fun env => [Tick (SIMULATION_FREQUENCY env); Flip]) envs)%list.
Proof.
  revert st. induction envs as [| env envs IH]; intros st Henvs HS Hrv.
  - exists st. split; [reflexivity |]. repeat split; try assumption.
    cbn. now rewrite app_nil_r.
  - cbn [forallb] in Henvs. apply andb_prop in Henvs as [Henv Henvs].
    pose proof (display_plain env st Henv HS Hrv) as E1.
    match type of E1 with
    | _ = (_, ?s) => destruct (IH s Henvs) as (st' & E & Hrv' & Hfr & Hvn & Hfs & Hlg)
    end.
    + cbn [self sim_surface]. now rewrite frame_drawn_scaling.
    + reflexivity.
    + exists st'. split.
      * unfold displays. cbn [for_each]. rewrite (bind_ok _ _ _ _ _ E1). exact E.
      * cbn [self world frame video_name files log] in Hfr, Hvn, Hfs, Hlg.
        repeat split; try assumption.
        rewrite Hlg. cbn [flat_map]. now rewrite <- app_assoc.
Qed.

Lemma close_plain (shell : string -> gmap string kind -> gmap string kind * Z) (env : Env)
    (st : State) :
  record_video (self st) = false ->
  close shell env st
  = (Ok tt, {| self := self st;
               world := {| files := files (world st);
                           log := (log (world st) ++ [PygameQuit])%list |} |}).
Proof.
  intros Hrv. destruct st as [[rv scr sf fr vn] [fs lg]]. cbn in Hrv. subst rv.
  reflexivity.
Qed.

(** X7: a viewer built without recording never touches the file system and
    never starts an external command.  Its constructor only opens the
    window, each display cycle only ticks the clock and flips the display,
    and [close] only quits pygame, however long the session. *)
Theorem session_without_capture
    (shell : string -> gmap string kind -> gmap string kind * Z)
    (now : string) (w : World) (envs : list Env) (env : Env) :
  forallb drawable envs = true ->
  exists w0 st st',
    EnvViewer.__init__ false now w = (Ok (new_viewer false now), w0) /\
    displays envs {| self := new_viewer false now; world := w0 |} = (Ok tt, st) /\
    close shell env st = (Ok tt, st') /\
    files (world st') = files w /\
    log (world st')
    = (log w
       ++ [PygameInit; SetCaption "Obstacle-env"; SetMode 400 400]
       ++ flat_map (fun env => [Tick (SIMULATION_FREQUENCY env); Flip]) envs
       ++ [PygameQuit])%list /\
    frame (self st') = None.
Proof.
  intros Henvs.
  destruct (displays_plain envs
              {| self := new_viewer false now;
                 world := {| files := files w;
                             log := (log w ++ [PygameInit; SetCaption "Obstacle-env";
                                               SetMode 400 400])%list |} |} Henvs)
    as (st & E & Hrv & Hfr & _ & Hfs & Hlg); [discriminate | reflexivity |].
  eexists _, st, _. split.
  - unfold EnvViewer.__init__. do 3 (erewrite bind_ok by reflexivity).
    unfold mret, M_ret. cbn [files log new_viewer].
    rewrite <- !app_assoc. reflexivity.
  - split; [exact E |]. split; [now apply close_plain |].
    cbn [self world files log] in *.
    split; [exact Hfs |]. split; [| exact Hfr].
    rewrite Hlg. now rewrite <- !app_assoc.
Qed.

Lemma session_without_capture_witness :
  exists st',
    close failing_shell example_env
      (snd (displays [example_env; example_env]
              {| self := new_viewer false "";
                 world := snd (EnvViewer.__init__ false "" empty_world) |}))
    = (Ok tt, st') /\
    files (world st') = ∅.
Proof.
  destruct (session_without_capture failing_shell "" empty_world
              [example_env; example_env] example_env eq_refl)
    as (w0 & st & st' & E0 & E & Ec & Hf & _).
  exists st'. rewrite E0. cbn [snd]. rewrite E. cbn [snd]. split; assumption.
Defined.

(** X8: closing a recording viewer whose environment has the simulation
    frequency 0 raises [ZeroDivisionError] from the computation of the gif
    delay.  By then pygame has quit and the video encoder has run; the
    second encoder is not started and the temporary directory is not
    cleared. *)
Theorem close_at_zero_frequency
    (shell : string -> gmap string kind -> gmap string kind * Z) (env : Env) (st : State)
    (name : string) :
  record_video (self st) = true ->
  video_name (self st) = Some name ->
  SIMULATION_FREQUENCY env = 0%Z ->
  close shell env st
  = (Raise ZeroDivisionError,
     {| self := self st;
        world := {| files := fst (shell (ffmpeg_command name 0) (files (world st)));
                    log := (log (world st)
                            ++ [PygameQuit; System (ffmpeg_command name 0)])%list |} |}).
Proof.
  intros Hrv Hvn Hf.
  destruct st as [[rv scr sf fr vn] [fs lg]]. cbn in Hrv, Hvn. subst rv vn.
  cbn [self world files log].
  unfold close. rewrite Hf.
  do 2 (erewrite bind_ok by reflexivity).
  cbn [self record_video video_name attr].
  do 2 (erewrite bind_ok by reflexivity).
  erewrite bind_raise by reflexivity.
  cbn [self world files log fst snd]. now rewrite <- !app_assoc.
Qed.

Lemma close_at_zero_frequency_witness :
  fst (close failing_shell (empty_env 0) recorded_state) = Raise ZeroDivisionError /\
  files (world (snd (close failing_shell (empty_env 0) recorded_state))) !! TMP_FOLDER
  = Some Dir.
Proof.
  rewrite (close_at_zero_frequency failing_shell (empty_env 0) recorded_state
             "obstacle_2018-03-01-12:00:00" eq_refl eq_refl eq_refl).
  split; [reflexivity |]. vm_compute. reflexivity.
Defined.

(** X9: a whole recorded session.  The constructor is given a file system
    on which neither the output directory nor the temporary directory is a
    regular file; N display cycles follow, then [close] with a frequency
    that is not zero and encoders that may fail and change any file but
    leave the temporary directory a directory.  The session ends normally,
    the temporary directory holds N frame images before [close], and
    neither it nor anything below it exists after. *)
Theorem recorded_session_cleans_up
    (shell : string -> gmap string kind -> gmap string kind * Z)
    (now : string) (w : World) (envs : list Env) (env : Env) :
  slashless now = true ->
  files w !! OUT_FOLDER <> Some File ->
  files w !! TMP_FOLDER <> Some File ->
  (files w !! TMP_FOLDER = None -> tree TMP_FOLDER (files w) = ∅) ->
  forallb drawable envs = true ->
  SIMULATION_FREQUENCY env <> 0%Z ->
  (forall command fs,
     fs !! TMP_FOLDER = Some Dir -> fst (shell command fs) !! TMP_FOLDER = Some Dir) ->
  exists w0 st st',
    EnvViewer.__init__ true now w = (Ok (new_viewer true now), w0) /\
    displays envs {| self := new_viewer true now; world := w0 |} = (Ok tt, st) /\
    size (tree TMP_FOLDER (files (world st))) = length envs /\
    close shell env st = (Ok tt, st') /\
    files (world st') !! TMP_FOLDER = None /\
    tree TMP_FOLDER (files (world st')) = ∅.
Proof.
  intros Hnow Hout Htmp Hc Henvs Hf Hshell.
  assert (slashless ("obstacle_" ++ now) = true) as Hname.
  { rewrite slashless_app, Hnow. reflexivity. }
  destruct (init_recording now w Hout Htmp Hc) as (w0 & E0 & Hrec0).
  destruct (displays_recording envs _ 0 _ Henvs Hname Hrec0) as (st & E & Hrec).
  cbn [Nat.add] in Hrec. destruct Hrec as (Hrv & _ & Hvn & _ & Hdir & Htree & _).
  exists w0, st. eexists. split; [exact E0 |]. split; [exact E |].
  split; [rewrite Htree; apply size_frame_paths |].
  split; [apply (close_run shell env st _ Hrv Hvn Hf) |].
  cbn [self world]. rewrite clear_video_dir_run. cbn [snd files].
  rewrite (Hshell _ _ (Hshell _ _ Hdir)). cbn [files]. split.
  - rewrite lookup_rmtree. case_bool_decide as H; [destruct H; congruence | reflexivity].
  - apply tree_rmtree.
Qed.

Lemma recorded_session_cleans_up_witness :
  exists st',
    close failing_shell example_env
      (snd (displays [example_env; example_env]
              {| self := new_viewer true "2018-03-01-12:00:00";
                 world := snd (EnvViewer.__init__ true "2018-03-01-12:00:00" empty_world) |}))
    = (Ok tt, st') /\
    tree TMP_FOLDER (files (world st')) = ∅.
Proof.
  destruct (recorded_session_cleans_up failing_shell "2018-03-01-12:00:00" empty_world
              [example_env; example_env] example_env)
    as (w0 & st & st' & E0 & E & _ & Ec & _ & Ht).
  - reflexivity.
  - discriminate.
  - discriminate.
  - intros _. apply set_eq. intros q. rewrite elem_of_tree. cbn [files empty_world].
    rewrite lookup_empty, elem_of_empty. split; [intros (_ & H); now destruct H | tauto].
  - reflexivity.
  - discriminate.
  - intros command fs Hfs. exact Hfs.
  - exists st'. rewrite E0. cbn [snd]. rewrite E. cbn [snd]. split; assumption.
Defined.

(** ** Events *)

(** X10: [handle_events] never raises and touches neither the files nor
    the viewer's screen, frame counter or session name.  It passes every
    event, a window-close event included, to the viewport in order, and
    calls [env.close()] once for each window-close event and for no
    other. *)
Theorem handle_events_forwards (events : list Event) (st : State) :
  handle_events events st
  = (Ok tt,
     {| self := EnvViewer.mk (record_video (self st)) (screen (self st))
                  (handle_all events (sim_surface (self st)))
                  (frame (self st)) (video_name (self st));
        world := {| files := files (world st);
                    log := (log (world st)
                            ++ flat_map (fun e => if e is QUIT then [EnvClose] else [])
                                 events)%list |} |}).
Proof.
  revert st. induction events as [| e events IH]; intros [[rv scr sf fr vn] [fs lg]].
  - cbn. now rewrite app_nil_r.
  - unfold handle_events. cbn [for_each]. fold (handle_events events).
    pose proof (IH {| self := EnvViewer.mk rv scr (handle_event sf e) fr vn;
                      world := {| files := fs;
                                  log := if e is QUIT then (lg ++ [EnvClose])%list else lg |} |})
      as E.
    cbn [self world record_video screen sim_surface frame video_name files log] in E.
    destruct e;
      (erewrite bind_ok by reflexivity);
      (etransitivity; [exact E |]);
      try reflexivity.
    cbn [handle_all fold_left flat_map]. now rewrite <- app_assoc.
Qed.

Lemma scaling_factor_succ (z : Z) :
  (SCALING_FACTOR ^ (1 + z) == SCALING_FACTOR * SCALING_FACTOR ^ z)%Q.
Proof. rewrite Qpower_plus by discriminate. reflexivity. Qed.

Lemma scaling_factor_pred (z : Z) :
  (SCALING_FACTOR ^ (z - 1) == SCALING_FACTOR ^ z * (1 / SCALING_FACTOR))%Q.
Proof.
  unfold Z.sub. rewrite Qpower_plus by discriminate.
  apply Qmult_comp; reflexivity.
Qed.

Lemma zoomed_and_panned_same_view (z z' p p' : Z) (a b : SimulationSurface.t) :
  z = z' -> p = p' -> same_view a b ->
  same_view (zoomed_and_panned z p a) (zoomed_and_panned z' p' b).
Proof.
  intros <- <- (H1 & H2 & H3 & H4 & H5 & H6).
  repeat split; cbn; try assumption.
  - now rewrite H5.
  - now rewrite H6.
Qed.

Ltac evaluate_counts :=
  repeat match goal with
         | |- context [(SCALING_FACTOR ^ ?z)%Q] =>
             let v := eval vm_compute in (SCALING_FACTOR ^ z)%Q in
             change (SCALING_FACTOR ^ z)%Q with v
         | |- context [inject_Z ?z] =>
             let v := eval vm_compute in (inject_Z z) in
             change (inject_Z z) with v
         end.

Lemma handle_event_closed_form (self : SimulationSurface.t) (e : Event) :
  same_view (handle_event self e)
    (zoomed_and_panned (presses K_o [e] - presses K_l [e])
                       (presses K_k [e] - presses K_m [e]) self).
Proof.
  unfold zoomed_and_panned.
  destruct e as [| key | key | ty];
    try (repeat split; cbn [presses handle_event set_scaling set_centering_position
                            scaling centering_position];
         evaluate_counts; unfold MOVING_FACTOR; ring).
  unfold handle_event. cbn [presses].
  destruct (Z.eqb_spec key K_l), (Z.eqb_spec key K_o),
           (Z.eqb_spec key K_m), (Z.eqb_spec key K_k);
    subst; try discriminate;
    repeat split;
    cbn [set_scaling set_centering_position scaling centering_position];
    evaluate_counts; unfold SCALING_FACTOR, MOVING_FACTOR; try ring; field.
Qed.

Lemma presses_cons (key : Z) (e : Event) (events : list Event) :
  presses key (e :: events) = (presses key [e] + presses key events)%Z.
Proof. destruct e; cbn [presses]; lia. Qed.

Lemma zoomed_and_panned_twice (z1 z2 p1 p2 : Z) (self : SimulationSurface.t) :
  same_view (zoomed_and_panned z2 p2 (zoomed_and_panned z1 p1 self))
            (zoomed_and_panned (z1 + z2) (p1 + p2) self).
Proof.
  repeat split; cbn [zoomed_and_panned set_scaling set_centering_position
                     scaling centering_position].
  - rewrite Qpower_plus by discriminate.
    generalize (SCALING_FACTOR ^ z1)%Q (SCALING_FACTOR ^ z2)%Q. intros a b. ring.
  - rewrite inject_Z_plus. ring.
Qed.

Lemma handle_all_zoomed_and_panned (events : list Event) (self : SimulationSurface.t) :
  same_view (handle_all events self)
    (zoomed_and_panned (presses K_o events - presses K_l events)
                       (presses K_k events - presses K_m events) self).
Proof.
  revert self. induction events as [| e events IH]; intros self.
  - repeat split;
      cbn [handle_all fold_left zoomed_and_panned set_scaling set_centering_position
           scaling centering_position presses];
      evaluate_counts; unfold MOVING_FACTOR; ring.
  - change (handle_all (e :: events) self) with (handle_all events (handle_event self e)).
    eapply same_view_trans; [apply IH |].
    eapply same_view_trans;
      [apply zoomed_and_panned_same_view;
       [reflexivity | reflexivity | apply handle_event_closed_form] |].
    eapply same_view_trans; [apply zoomed_and_panned_twice |].
    apply zoomed_and_panned_same_view; [| | apply same_view_refl];
      rewrite !(presses_cons _ e events); lia.
Qed.

(** X11: the viewport after any sequence of events depends only on how
    often each of the four keys was pressed, not on the order: the scale is
    the old one times 1.3 to the power (presses of [K_o] minus presses of
    [K_l]), the centering fraction the old one plus 0.1 times (presses of
    [K_k] minus presses of [K_m]); origin, size and pixels are unchanged,
    and key releases and other events do not count. *)
Theorem handle_all_closed_form (events : list Event) (self : SimulationSurface.t) :
  (scaling (handle_all events self)
   == scaling self * 1.3 ^ (presses K_o events - presses K_l events))%Q /\
  (centering_position (handle_all events self)
   == centering_position self
      + 0.1 * inject_Z (presses K_k events - presses K_m events))%Q /\
  origin (handle_all events self) = origin self /\
  width (handle_all events self) = width self /\
  height (handle_all events self) = height self /\
  canvas (handle_all events self) = canvas self.
Proof.
  destruct (handle_all_zoomed_and_panned events self) as (H1 & H2 & H3 & H4 & H5 & H6).
  repeat split; assumption.
Qed.

(** X12: no sequence of events makes a positive scale zero or negative.
    So on a surface as constructed, after any events,
    [move_display_window_to] on a column vector never raises and [pix] of a
    non-negative length is never negative. *)
Theorem scaling_stays_positive (events : list Event) :
  (forall self : SimulationSurface.t,
     (0 < scaling self)%Q -> (0 < scaling (handle_all events self))%Q) /\
  (forall size x y,
     exists self',
       move_display_window_to (handle_all events (SimulationSurface.__init__ size))
         (column x y) = Ok self') /\
  (forall size (L : Q),
     (0 <= L)%Q ->
     (0 <= pix (handle_all events (SimulationSurface.__init__ size)) L)%Z).
Proof.
  assert (forall self : SimulationSurface.t,
            (0 < scaling self)%Q -> (0 < scaling (handle_all events self))%Q) as Hpos.
  { intros self HS.
    destruct (handle_all_zoomed_and_panned events self) as (_ & _ & _ & _ & -> & _).
    cbn [zoomed_and_panned set_scaling scaling].
    apply Qmult_lt_0_compat; [exact HS |]. now apply Qpower_0_lt. }
  split; [exact Hpos |]. split.
  - intros size x y. eexists. apply move_display_window_to_column.
    intros E. specialize (Hpos (SimulationSurface.__init__ size) eq_refl).
    rewrite E in Hpos. discriminate.
  - intros size L HL. unfold pix.
    rewrite py_int_nonneg.
    + change 0%Z with (Qfloor 0). apply Qfloor_resp_le.
      apply Qmult_le_0_compat; [exact HL |].
      apply Qlt_le_weak. now apply Hpos.
    + apply Qmult_le_0_compat; [exact HL |].
      apply Qlt_le_weak. now apply Hpos.
Qed.

Lemma scaling_stays_positive_witness :
  (0 < scaling (handle_all [KEYDOWN K_l; KEYDOWN K_l; QUIT] surface_at_zero))%Q.
Proof.
  apply (proj1 (scaling_stays_positive [KEYDOWN K_l; KEYDOWN K_l; QUIT])).
  reflexivity.
Defined.

(** ** The viewport, further *)

(** X13: [move_display_window_to] raises [ZeroDivisionError] when the scale
    is zero, whatever the position; otherwise it raises [ValueError] when
    the position cannot be broadcast against a [(2, 1)] array, and in all
    other cases it returns the surface with a new origin and nothing else
    changed.  The new origin does not depend on the old one, so recentring
    twice on the same position is the same as once. *)
Theorem move_display_window_to_outcomes (self : SimulationSurface.t) (P : ndarray) :
  ((scaling self == 0)%Q -> move_display_window_to self P = Raise ZeroDivisionError) /\
  (~ (scaling self == 0)%Q -> broadcasts P = false ->
   move_display_window_to self P = Raise ValueError) /\
  (~ (scaling self == 0)%Q -> broadcasts P = true ->
   exists o, move_display_window_to self P = Ok (set_origin o self)) /\
  (forall self' o,
     move_display_window_to self P = Ok self' ->
     move_display_window_to (set_origin o self) P = Ok self' /\
     move_display_window_to self' P = Ok self').
Proof.
  split; [| split; [| split]].
  - intros HS. unfold move_display_window_to, py_div.
    apply Qeq_bool_iff in HS. now rewrite HS.
  - intros HS HP. destruct (scaling_nonzero self HS) as [E1 E2].
    unfold move_display_window_to, py_div. rewrite E1, E2. cbn [mbind res_bind].
    destruct P as [v | [| r0 [| r1 [| r2 rows]]]]; try discriminate; reflexivity.
  - intros HS HP. destruct (scaling_nonzero self HS) as [E1 E2].
    unfold move_display_window_to, py_div. rewrite E1, E2. cbn [mbind res_bind].
    destruct P as [v | [| r0 [| r1 [| r2 rows]]]]; try discriminate;
      eexists; reflexivity.
  - intros self' o H. split; [exact H |].
    destruct (move_display_window_to_ok _ _ _ H) as (o' & ->). exact H.
Qed.

Lemma move_display_window_to_outcomes_witness :
  move_display_window_to (set_scaling 0 surface_at_zero) (column 1 2)
  = Raise ZeroDivisionError /\
  move_display_window_to surface_at_zero (Arr2 [[1]; [2]; [3]]) = Raise ValueError.
Proof.
  split.
  - apply (proj1 (move_display_window_to_outcomes _ _)). reflexivity.
  - apply (proj1 (proj2 (move_display_window_to_outcomes _ _)));
      [discriminate | reflexivity].
Defined.

Lemma py_int_opp (q : Q) : py_int (- q) = (- py_int q)%Z.
Proof. destruct q as [n d]. unfold py_int. cbn. apply Z.quot_opp_l. lia. Qed.

Lemma py_int_within_one (q : Q) :
  (q - 1 < inject_Z (py_int q))%Q /\ (inject_Z (py_int q) < q + 1)%Q.
Proof.
  pose proof (Qfloor_le q) as F1. pose proof (Qlt_floor q) as F2.
  pose proof (Qle_ceiling q) as C1. pose proof (Qceiling_lt q) as C2.
  rewrite inject_Z_plus in F2. unfold Z.sub in C2.
  rewrite inject_Z_plus, inject_Z_opp in C2.
  change (inject_Z 1) with 1%Q in *.
  destruct (Qlt_le_dec q 0) as [Hq | Hq].
  - rewrite py_int_nonpos by now apply Qlt_le_weak. split; lra.
  - rewrite py_int_nonneg by exact Hq. split; lra.
Qed.

Lemma py_int_small (q : Q) : (-1 < q)%Q -> (q < 1)%Q -> py_int q = 0%Z.
Proof.
  intros Hlo Hhi. destruct (Qlt_le_dec q 0) as [Hq | Hq].
  - rewrite py_int_nonpos by now apply Qlt_le_weak.
    assert (Qceiling q <= 0)%Z as A.
    { change 0%Z with (Qceiling 0). apply Qceiling_resp_le. now apply Qlt_le_weak. }
    assert (-1 < Qceiling q)%Z as B.
    { rewrite Zlt_Qlt. pose proof (Qle_ceiling q). change (inject_Z (-1)) with (-1)%Q. lra. }
    lia.
  - rewrite py_int_nonneg by exact Hq.
    assert (0 <= Qfloor q)%Z as A.
    { change 0%Z with (Qfloor 0). now apply Qfloor_resp_le. }
    assert (Qfloor q < 1)%Z as B.
    { rewrite Zlt_Qlt. pose proof (Qfloor_le q). change (inject_Z 1) with 1%Q. lra. }
    lia.
Qed.

(** X14: [pix] is odd: a length and its opposite go to opposite pixel
    counts.  Truncation is thus symmetric about zero, and every length that
    scales to strictly less than one pixel, on either side of zero, goes to
    0; the result is always within one pixel of the scaled length. *)
Theorem pix_odd (self : SimulationSurface.t) (L : Q) :
  pix self (- L) = (- pix self L)%Z /\
  ((-1 < L * scaling self)%Q -> (L * scaling self < 1)%Q -> pix self L = 0%Z) /\
  (L * scaling self - 1 < inject_Z (pix self L))%Q /\
  (inject_Z (pix self L) < L * scaling self + 1)%Q.
Proof.
  split; [| split].
  - unfold pix. rewrite <- py_int_opp. apply py_int_comp. ring.
  - intros Hlo Hhi. now apply py_int_small.
  - apply py_int_within_one.
Qed.

Lemma pix_odd_witness : pix surface_at_zero (1 # 20) = 0%Z.
Proof.
  apply (proj1 (proj2 (pix_odd surface_at_zero (1 # 20)))); reflexivity.
Defined.

(** X15: for a scale that is not negative, [pos2pix] preserves the order of
    the coordinates on each axis: a point further right or further down in
    the world is never drawn further left or further up. *)
Theorem pos2pix_monotone (self : SimulationSurface.t) (x1 y1 x2 y2 : Q) :
  indexable (origin self) = true ->
  (0 <= scaling self)%Q ->
  (x1 <= x2)%Q -> (y1 <= y2)%Q ->
  exists p1 p2,
    pos2pix self x1 y1 = Ok p1 /\
    pos2pix self x2 y2 = Ok p2 /\
    (fst p1 <= fst p2)%Z /\ (snd p1 <= snd p2)%Z.
Proof.
  intros Ho HS Hx Hy. destruct (index2_corner _ Ho) as (Hox & Hoy).
  rewrite !(pos2pix_indexed self _ _ _ _ Hox Hoy).
  eexists _, _. split; [reflexivity |]. split; [reflexivity |].
  cbn [fst snd]. unfold pix.
  split; apply py_int_le; apply Qmult_le_compat_r; try exact HS; lra.
Qed.

Lemma pos2pix_monotone_witness :
  exists p1 p2,
    pos2pix surface_at_zero 1 5 = Ok p1 /\
    pos2pix surface_at_zero 2 5 = Ok p2 /\
    (fst p1 <= fst p2)%Z /\ (snd p1 <= snd p2)%Z.
Proof.
  apply (pos2pix_monotone surface_at_zero 1 5 2 5); [reflexivity | | | ]; discriminate.
Defined.

Lemma pos2pix_outcomes (self : SimulationSurface.t) (x y : Q) :
  (exists p, pos2pix self x y = Ok p) \/ pos2pix self x y = Raise IndexError.
Proof.
  destruct (indexable (origin self)) eqn:Ho.
  - left. destruct (index2_corner _ Ho) as (Hox & Hoy).
    rewrite (pos2pix_indexed self _ _ _ _ Hox Hoy). eexists. reflexivity.
  - right. unfold pos2pix, mbind, res_bind.
    destruct (index2_not_indexable _ Ho) as [-> | (ox & -> & ->)]; reflexivity.
Qed.

(** X16: [rect] needs four entries and a two-dimensional origin; without
    them it raises [IndexError], the only exception it raises.  With them
    it returns the pixel of the first two entries followed by the pixel
    sizes of the next two, and ignores every entry after the fourth. *)
Theorem rect_first_four_entries (self : SimulationSurface.t) (r : list Q) :
  ((length r < 4)%nat \/ indexable (origin self) = false ->
   rect self r = Raise IndexError) /\
  (forall x y dx dy rest,
     r = x :: y :: dx :: dy :: rest ->
     indexable (origin self) = true ->
     rect self r
     = Ok [pix self (x - fst (corner (origin self)))%Q;
           pix self (y - snd (corner (origin self)))%Q;
           pix self dx; pix self dy]).
Proof.
  split.
  - intros H. unfold rect, vec2pix, item, mbind, res_bind.
    destruct r as [| x [| y [| dx [| dy rest]]]]; try reflexivity.
    + cbn [nth_error].
      destruct (pos2pix_outcomes self x y) as [(p & ->) | ->]; reflexivity.
    + cbn [nth_error skipn firstn].
      destruct (pos2pix_outcomes self x y) as [(p & ->) | ->]; reflexivity.
    + destruct H as [H | Ho]; [cbn in H; lia |].
      cbn [nth_error]. unfold pos2pix, mbind, res_bind.
      destruct (index2_not_indexable _ Ho) as [-> | (ox & -> & ->)]; reflexivity.
  - intros x y dx dy rest -> Ho.
    destruct (index2_corner _ Ho) as (Hox & Hoy).
    unfold rect, item. cbn [nth_error mbind res_bind].
    rewrite (pos2pix_indexed self _ _ _ _ Hox Hoy). reflexivity.
Qed.

Lemma rect_first_four_entries_witness :
  rect surface_at_zero [1; 2; 3] = Raise IndexError /\
  rect surface_at_zero [1; 2; 3; 4; 5] = Ok [15; 30; 45; 60]%Z.
Proof.
  split.
  - apply (proj1 (rect_first_four_entries surface_at_zero [1; 2; 3])).
    left. cbn. lia.
  - rewrite (proj2 (rect_first_four_entries surface_at_zero [1; 2; 3; 4; 5])
               1 2 3 4 [5] eq_refl eq_refl).
    reflexivity.
Defined.

(** ** Frame names and the gif delay *)

(** X17: the index in a frame file name reads back as the frame number,
    so frames with different numbers never share a file; the index is the
    decimal number padded with zeros to four characters, and keeps all its
    digits when it has more. *)
Theorem frame_names_distinct (name : string) (i j : Z) :
  (0 <= i)%Z -> (0 <= j)%Z ->
  (frame_path name i = frame_path name j <-> i = j) /\
  number_of (format_04d i) = Some (Z.to_N i) /\
  String.length (format_04d i) = Nat.max 4 (String.length (digits (Z.to_N i))).
Proof.
  intros Hi Hj. split; [| split].
  - split; [now apply frame_path_inj | now intros ->].
  - now apply number_of_format_04d.
  - rewrite format_04d_nonneg by exact Hi.
    rewrite string_length_app, length_zeros. lia.
Qed.

Lemma frame_names_distinct_witness :
  String.length (format_04d 12345) = Nat.max 4 (String.length (digits 12345)) /\
  number_of (format_04d 7) = Some 7%N.
Proof.
  split.
  - apply (frame_names_distinct "" 12345 0); lia.
  - apply (frame_names_distinct "" 7 0); lia.
Defined.

Lemma np_round_nearest (x : Q) : rounds_to x (np_round x).
Proof.
  pose proof (Qfloor_le x) as F1. pose proof (Qlt_floor x) as F2.
  rewrite inject_Z_plus in F2. change (inject_Z 1) with 1%Q in F2.
  unfold rounds_to, np_round. apply Qabs_Qle_condition.
  destruct (x - inject_Z (Qfloor x) ?= 1 # 2)%Q eqn:E.
  - apply Qeq_alt in E. destruct (Z.even (Qfloor x)).
    + split; lra.
    + rewrite inject_Z_plus. change (inject_Z 1) with 1%Q. split; lra.
  - apply Qlt_alt in E. split; lra.
  - apply Qgt_alt in E. rewrite inject_Z_plus. change (inject_Z 1) with 1%Q.
    split; lra.
Qed.

(** X18: for a positive frequency, [close] starts [ffmpeg] with the frame
    rate 2 * frequency and then [convert] with a delay that is an integer
    nearest to 100 / (2 * frequency), in hundredths of a second, and lies
    between 0 and 50.  Both command lines name the session's frames in the
    temporary directory and write beside it, in the output directory. *)
Theorem close_gif_delay
    (shell : string -> gmap string kind -> gmap string kind * Z) (env : Env) (st : State)
    (name : string) :
  record_video (self st) = true ->
  video_name (self st) = Some name ->
  (0 < SIMULATION_FREQUENCY env)%Z ->
  exists st' delay cleanup,
    close shell env st = (Ok tt, st') /\
    log (world st')
    = (log (world st)
       ++ [PygameQuit;
           System ("ffmpeg -r " ++ format_int (2 * SIMULATION_FREQUENCY env)
                   ++ " -i out/tmp/" ++ name
                   ++ "_%04d.bmp -vcodec libx264 -crf 25 out/" ++ name ++ ".avi");
           System ("convert -delay " ++ format_int delay
                   ++ " -loop 0 out/tmp/" ++ name ++ "*.bmp out/" ++ name ++ ".gif")]
       ++ cleanup)%list /\
    rounds_to (100 / inject_Z (2 * SIMULATION_FREQUENCY env)) delay /\
    (0 <= delay <= 50)%Z.
Proof.
  intros Hrv Hvn Hf.
  rewrite (close_run shell env st name Hrv Hvn) by lia.
  rewrite clear_video_dir_run. cbn [snd files].
  change (VIDEO_SPEED * SIMULATION_FREQUENCY env)%Z with (2 * SIMULATION_FREQUENCY env)%Z.
  set (q := (100 / inject_Z (2 * SIMULATION_FREQUENCY env))%Q).
  pose proof (np_round_nearest q) as Hr.
  assert (0 <= np_round q <= 50)%Z as Hb.
  { assert (2 <= inject_Z (2 * SIMULATION_FREQUENCY env))%Q as Hd.
    { change 2%Q with (inject_Z 2). rewrite <- Zle_Qle. lia. }
    assert (0 < q)%Q as Hq0.
    { unfold q. apply Qlt_shift_div_l; lra. }
    assert (q <= 50)%Q as Hq1.
    { unfold q. apply Qle_shift_div_r; lra. }
    pose proof Hr as Hr'. unfold rounds_to in Hr'. apply Qabs_Qle_condition in Hr'.
    split.
    - assert (-1 < np_round q)%Z; [| lia].
      rewrite Zlt_Qlt. change (inject_Z (-1)) with (-1)%Q. lra.
    - assert (np_round q < 51)%Z; [| lia].
      rewrite Zlt_Qlt. change (inject_Z 51) with 51%Q. lra. }
  destruct (_ !! TMP_FOLDER) as [[|] |];
    eexists _, (np_round q), _;
    (split; [reflexivity |]); cbn [world log];
    (split; [rewrite <- ?app_assoc; cbn [app]; reflexivity | split; assumption]).
Qed.

Lemma close_gif_delay_witness :
  exists st' delay cleanup,
    close failing_shell example_env recorded_state = (Ok tt, st') /\
    log (world st')
    = ([PygameQuit;
        System ("ffmpeg -r 30 -i out/tmp/obstacle_2018-03-01-12:00:00_%04d.bmp"
                ++ " -vcodec libx264 -crf 25 out/obstacle_2018-03-01-12:00:00.avi");
        System ("convert -delay " ++ format_int delay
                ++ " -loop 0 out/tmp/obstacle_2018-03-01-12:00:00*.bmp"
                ++ " out/obstacle_2018-03-01-12:00:00.gif")]
       ++ cleanup)%list /\
    (0 <= delay <= 50)%Z.
Proof.
  destruct (close_gif_delay failing_shell example_env recorded_state
              "obstacle_2018-03-01-12:00:00" eq_refl eq_refl eq_refl)
    as (st' & delay & cleanup & E & Hlg & _ & Hd).
  exists st', delay, cleanup. repeat split; try assumption; apply Hd.
Defined.

(** ** Malformed agents *)

(** X19: an agent whose position is a flat array passes the truth test of
    [window_position] and recentres the surface by broadcasting, and the
    scene is painted; then [display_dynamics] indexes the position with two
    indices and [display] raises [IndexError].  Nothing is shown or saved
    and the frame counter is not incremented. *)
Theorem display_flat_agent_position (env : Env) (st : State) (d : Dynamics)
    (v : list Q) :
  dynamics env = Some d ->
  position d = Arr1 v ->
  v <> [] ->
  forallb (fun o => indexable (ob_position o)) (obstacles (scene env)) = true ->
  ~ (scaling (sim_surface (self st)) == 0)%Q ->
  exists st',
    display env st = (Raise IndexError, st') /\
    canvas (sim_surface (self st'))
    = (canvas (sim_surface (self st))
       ++ background (sim_surface (self st))
       :: map (obstacle_circle (recentred (sim_surface (self st)) (Arr1 v)))
            (obstacles (scene env)))%list /\
    screen (self st') = screen (self st) /\
    frame (self st') = frame (self st) /\
    world st' = world st.
Proof.
  intros Hd Hp Hv Hobs HS. destruct st as [[rv scr sf fr vn] w]. cbn in HS.
  cbn [self world record_video screen sim_surface frame video_name].
  pose proof (move_display_window_to_flat sf v HS) as Em.
  unfold recentred. rewrite Em.
  set (sf1 := set_origin _ sf) in *.
  assert (indexable (origin sf1) = true) as Ho.
  { destruct v as [| a v]; [contradiction | reflexivity]. }
  unfold display, window_position. rewrite Hd, Hp.
  erewrite bind_ok.
  2:{ apply on_surface_run. cbn [self sim_surface].
      rewrite (bind_ok _ _ sf sf sf) by reflexivity.
      unfold lift. erewrite bind_ok by (rewrite Em; reflexivity). reflexivity. }
  erewrite bind_ok.
  2:{ apply on_surface_run. cbn [self sim_surface].
      apply scene_display_run; [exact Ho | exact Hobs]. }
  erewrite bind_raise.
  2:{ apply on_surface_run. cbn [self sim_surface].
      unfold Scene2dGraphics.display_dynamics.
      erewrite bind_ok by reflexivity. rewrite Hp. reflexivity. }
  eexists. split; [reflexivity |]. repeat split.
Qed.

Lemma display_flat_agent_position_witness :
  fst (display {| scene := {| obstacles := [] |};
                  dynamics := Some {| position := Arr1 [1; 2] |};
                  SIMULATION_FREQUENCY := 15 |} recorded_state)
  = Raise IndexError.
Proof.
  destruct (display_flat_agent_position
              {| scene := {| obstacles := [] |};
                 dynamics := Some {| position := Arr1 [1; 2] |};
                 SIMULATION_FREQUENCY := 15 |}
              recorded_state {| position := Arr1 [1; 2] |} [1; 2])
    as (st' & E & _).
  - reflexivity.
  - reflexivity.
  - discriminate.
  - reflexivity.
  - discriminate.
  - now rewrite E.
Defined.
